(** * netboot: ProxyDHCP negotiation and TFTP image dispatch

    A shallow embedding of [server/dhcp.go], [server/tftp.go] and
    [dhcp4/conn.go], with the properties of the natural-language
    specification stated and proved over it.

    Conventions.
    - Go [int] (64 bit), [uint16], [constants.Firmware],
      [constants.Architecture] and [dhcp4.Option] are [Z];
      [[]byte] is [list byte]; Go strings (byte sequences) are [string].
    - A Go [error] is a value of [error] below: the constructor
      remembers the [errors.New] / [fmt.Errorf] call that made it.
    - A function returning [(T, error)] returns [error + T]
      ([inl] is the failure).
    - Logging calls append to an explicit trace. *)

From Stdlib Require Import ZArith Lia List String Ascii.
From Stdlib.Strings Require Import Byte.
From stdpp Require Import base gmap strings list pretty.

Open Scope string_scope.
Open Scope list_scope.
Open Scope Z_scope.

(** ** Go standard library functions used by the sources *)

Module Go.

(** [strings.HasPrefix(s, prefix)]. *)
Fixpoint strings_HasPrefix (s prefix : string) {struct prefix} : bool :=
  match prefix, s with
  | EmptyString, _ => true
  | String p prefix', String c s' => Ascii.eqb c p && strings_HasPrefix s' prefix'
  | String _ _, EmptyString => false
  end.

(** [strings.Split(s, sep)] for a one-byte separator: the segments
    between the occurrences of [sep], in order; [n] occurrences give
    [n + 1] segments. *)
Fixpoint strings_Split (s : string) (sep : ascii) : list string :=
  match s with
  | EmptyString => [EmptyString]
  | String c s' =>
      if Ascii.eqb c sep then EmptyString :: strings_Split s' sep
      else match strings_Split s' sep with
           | seg :: segs => String c seg :: segs
           | [] => [String c EmptyString]
           end
  end.

(** The [%d] verb of [fmt] on an integer. *)
Definition fmt_d (n : Z) : string := pretty n.

(** *** strconv.Atoi *)

Definition maxInt : Z := 2 ^ 63 - 1.
Definition minInt : Z := - 2 ^ 63.

Definition decDigit (c : ascii) : option Z :=
  let n := Z.of_nat (nat_of_ascii c) in
  if (48 <=? n) && (n <=? 57) then Some (n - 48) else None.

Fixpoint decDigits (acc : Z) (s : string) : option Z :=
  match s with
  | EmptyString => Some acc
  | String c s' =>
      match decDigit c with
      | Some d => decDigits (acc * 10 + d) s'
      | None => None
      end
  end.

(** [strconv.Atoi]: an optional sign [+] or [-], then one or more
    decimal digits; the value has to fit an [int].  [None] stands for
    the [*NumError] (syntax or range). *)
Definition strconv_Atoi (s : string) : option Z :=
  match s with
  | EmptyString => None
  | String c rest =>
      let neg := Ascii.eqb c "-" in
      let digits := if neg || Ascii.eqb c "+" then rest else s in
      match digits with
      | EmptyString => None
      | _ =>
          match decDigits 0 digits with
          | None => None
          | Some n =>
              let v := if neg then - n else n in
              if (minInt <=? v) && (v <=? maxInt) then Some v else None
          end
      end
  end.

(** *** net.HardwareAddr *)

Definition HardwareAddr := list byte.

Definition hexDigit (n : N) : ascii :=
  match String.get (N.to_nat n) "0123456789abcdef" with
  | Some c => c
  | None => "0"%char
  end.

Definition stringOfByte (b : byte) : string :=
  String (hexDigit (N.shiftr (Byte.to_N b) 4))
    (String (hexDigit (N.land (Byte.to_N b) 15)) EmptyString).

(** [net.HardwareAddr.String]: two lower-case hex digits per byte,
    separated by colons; the empty address prints as the empty
    string. *)
Fixpoint HardwareAddr_String (a : HardwareAddr) : string :=
  match a with
  | [] => ""
  | [b] => stringOfByte b
  | b :: a' => stringOfByte b +:+ ":" +:+ HardwareAddr_String a'
  end.

Definition hexVal (c : ascii) : option N :=
  let n := N_of_ascii c in
  if (48 <=? n)%N && (n <=? 57)%N then Some (n - 48)%N
  else if (97 <=? n)%N && (n <=? 102)%N then Some (n - 97 + 10)%N
  else if (65 <=? n)%N && (n <=? 70)%N then Some (n - 65 + 10)%N
  else None.

(** [xtoi2(s, e)]: the next two hex digits of [s] as a byte; when [s]
    is longer than two bytes its third byte must be [e].  [e = None]
    is the call with a two-byte slice, where nothing follows. *)
Definition xtoi2 (s : string) (e : option ascii) : option byte :=
  match s with
  | String a (String b rest) =>
      let sepOk :=
        match rest, e with
        | String c _, Some e => Ascii.eqb c e
        | _, _ => true
        end in
      if sepOk then
        match hexVal a, hexVal b with
        | Some x, Some y => Byte.of_N (16 * x + y)
        | _, _ => None
        end
      else None
  | _ => None
  end.

Fixpoint dropString (n : nat) (s : string) : string :=
  match n, s with
  | O, _ => s
  | S n', String _ s' => dropString n' s'
  | S _, EmptyString => EmptyString
  end.

(** The loop of the colon/dash form: [n] groups [hh] three bytes apart. *)
Fixpoint macGroups2 (n : nat) (sep : ascii) (s : string) : option HardwareAddr :=
  match n with
  | O => Some []
  | S n' =>
      b ← xtoi2 s (Some sep);
      bs ← macGroups2 n' sep (dropString 3 s);
      Some (b :: bs)
  end.

(** The loop of the dotted form: [n] groups [hhhh] five bytes apart. *)
Fixpoint macGroups4 (n : nat) (sep : ascii) (s : string) : option HardwareAddr :=
  match n with
  | O => Some []
  | S n' =>
      b1 ← xtoi2 (String.substring 0 2 s) None;
      b2 ← xtoi2 (dropString 2 s) (Some sep);
      bs ← macGroups4 n' sep (dropString 5 s);
      Some (b1 :: b2 :: bs)
  end.

Definition macLen (n : Z) : bool := (n =? 6) || (n =? 8) || (n =? 20).

(** [net.ParseMAC]: 6, 8 or 20 bytes written [hh:hh:...], [hh-hh-...]
    or [hhhh.hhhh. ...].  [None] stands for the [*AddrError]. *)
Definition net_ParseMAC (s : string) : option HardwareAddr :=
  let len := Z.of_nat (String.length s) in
  if len <? 14 then None
  else
    match String.get 2 s, String.get 4 s with
    | Some s2, Some s4 =>
        if Ascii.eqb s2 ":" || Ascii.eqb s2 "-" then
          if negb ((len + 1) mod 3 =? 0) then None
          else
            let n := (len + 1) / 3 in
            if macLen n then macGroups2 (Z.to_nat n) s2 s else None
        else if Ascii.eqb s4 "." then
          if negb ((len + 1) mod 5 =? 0) then None
          else
            let n := 2 * (len + 1) / 5 in
            if macLen n then macGroups4 (Z.to_nat (n / 2)) s4 s else None
        else None
    | _, _ => None
    end.

(** *** net.IP *)

(** A [net.IP] is a byte slice of length 4 or 16; the [nil] address
    is the empty list. *)
Definition IP := list byte.

Definition v4InV6Prefix : list byte :=
  [x00; x00; x00; x00; x00; x00; x00; x00; x00; x00; xff; xff].

(** [net.IPv4(a, b, c, d)]: the 16-byte form of an IPv4 address. *)
Definition net_IPv4 (a b c d : byte) : IP := v4InV6Prefix ++ [a; b; c; d].

Definition IPv4bcast : IP := net_IPv4 xff xff xff xff.
Definition IPv4zero : IP := net_IPv4 x00 x00 x00 x00.
Definition IPv6unspecified : IP := replicate 16 x00.
Definition IPv6loopback : IP := replicate 15 x00 ++ [x01].

(** [bytealg.Equal]. *)
Fixpoint bytesEqual (a b : list byte) : bool :=
  match a, b with
  | [], [] => true
  | x :: a', y :: b' => Byte.eqb x y && bytesEqual a' b'
  | _, _ => false
  end.

(** [ip.To4()]: the 4-byte form of an IPv4 address, [None] (Go's
    [nil]) when [ip] is not an IPv4 address. *)
Definition IP_To4 (ip : IP) : option IP :=
  if Nat.eqb (length ip) 4 then Some ip
  else if Nat.eqb (length ip) 16 && bytesEqual (take 12 ip) v4InV6Prefix
  then Some (drop 12 ip)
  else None.

Definition IP_Equal (ip x : IP) : bool :=
  if Nat.eqb (length ip) (length x) then bytesEqual ip x
  else if Nat.eqb (length ip) 4 && Nat.eqb (length x) 16 then
    bytesEqual (take 12 x) v4InV6Prefix && bytesEqual ip (drop 12 x)
  else if Nat.eqb (length ip) 16 && Nat.eqb (length x) 4 then
    bytesEqual (take 12 ip) v4InV6Prefix && bytesEqual (drop 12 ip) x
  else false.

(** [ip[i]] as a number; 0 out of range (the callers index within
    the length they have checked). *)
Definition byteAt (ip : IP) (i : nat) : N :=
  match ip !! i with
  | Some b => Byte.to_N b
  | None => 0%N
  end.

Definition IP_IsUnspecified (ip : IP) : bool :=
  IP_Equal ip IPv4zero || IP_Equal ip IPv6unspecified.

Definition IP_IsLoopback (ip : IP) : bool :=
  match IP_To4 ip with
  | Some ip4 => (byteAt ip4 0 =? 127)%N
  | None => IP_Equal ip IPv6loopback
  end.

Definition IP_IsMulticast (ip : IP) : bool :=
  match IP_To4 ip with
  | Some ip4 => (N.land (byteAt ip4 0) 240 =? 224)%N
  | None => Nat.eqb (length ip) 16 && (byteAt ip 0 =? 255)%N
  end.

Definition IP_IsLinkLocalUnicast (ip : IP) : bool :=
  match IP_To4 ip with
  | Some ip4 => (byteAt ip4 0 =? 169)%N && (byteAt ip4 1 =? 254)%N
  | None =>
      Nat.eqb (length ip) 16 && (byteAt ip 0 =? 254)%N
      && (N.land (byteAt ip 1) 192 =? 128)%N
  end.

Definition IP_IsGlobalUnicast (ip : IP) : bool :=
  (Nat.eqb (length ip) 4 || Nat.eqb (length ip) 16)
  && negb (IP_Equal ip IPv4bcast)
  && negb (IP_IsUnspecified ip)
  && negb (IP_IsLoopback ip)
  && negb (IP_IsMulticast ip)
  && negb (IP_IsLinkLocalUnicast ip).

(** The dotted-decimal text of a 4-byte address. *)
Definition dotted (ip4 : IP) : string :=
  pretty (byteAt ip4 0) +:+ "." +:+ pretty (byteAt ip4 1) +:+ "."
  +:+ pretty (byteAt ip4 2) +:+ "." +:+ pretty (byteAt ip4 3).

(** [hexString]: two hex digits per byte. *)
Fixpoint hexString (b : list byte) : string :=
  match b with
  | [] => ""
  | x :: b' => stringOfByte x +:+ hexString b'
  end.

(** The eight 16-bit groups of a 16-byte address. *)
Fixpoint groups16 (ip : list byte) : list N :=
  match ip with
  | hi :: lo :: ip' => (256 * Byte.to_N hi + Byte.to_N lo)%N :: groups16 ip'
  | _ => []
  end.

(** A 16-bit group in hex without leading zeros. *)
Definition hex16 (g : N) : string :=
  let d3 := N.shiftr g 12 in
  let d2 := N.land (N.shiftr g 8) 15 in
  let d1 := N.land (N.shiftr g 4) 15 in
  let d0 := N.land g 15 in
  let s0 := String (hexDigit d0) EmptyString in
  let s1 := String (hexDigit d1) s0 in
  let s2 := String (hexDigit d2) s1 in
  if (0 <? d3)%N then String (hexDigit d3) s2
  else if (0 <? d2)%N then s2
  else if (0 <? d1)%N then s1
  else s0.

Fixpoint zeroRun (gs : list N) : nat :=
  match gs with
  | 0%N :: gs' => S (zeroRun gs')
  | _ => O
  end.

(** The leftmost longest run of at least two zero groups, as
    (start, length); length 0 when there is none. *)
Fixpoint longestZeroRun (i : nat) (gs : list N) (best : nat * nat) : nat * nat :=
  match gs with
  | [] => best
  | _ :: gs' =>
      let l := zeroRun gs in
      longestZeroRun (S i) gs'
        (if Nat.leb 2 l && Nat.ltb (snd best) l then (i, l) else best)
  end.

Fixpoint joinColon (gs : list N) : string :=
  match gs with
  | [] => ""
  | [g] => hex16 g
  | g :: gs' => hex16 g +:+ ":" +:+ joinColon gs'
  end.

Definition ipv6Text (ip : IP) : string :=
  let gs := groups16 ip in
  let '(start, len) := longestZeroRun 0 gs (O, O) in
  if Nat.eqb len 0 then joinColon gs
  else joinColon (take start gs) +:+ "::" +:+ joinColon (drop (start + len) gs).

(** [net.IP.String]. *)
Definition IP_String (ip : IP) : string :=
  if Nat.eqb (length ip) 0 then "<nil>"
  else if negb (Nat.eqb (length ip) 4 || Nat.eqb (length ip) 16) then "?" +:+ hexString ip
  else match IP_To4 ip with
       | Some p4 => dotted p4
       | None => ipv6Text ip
       end.

End Go.

Import Go.

(** ** Data model *)

Abbreviation Firmware := Z (only parsing).
Abbreviation Architecture := Z (only parsing).
Abbreviation Option_ := Z (only parsing).

(** Modelled from the spec: the message type of a packet, "enumeration:
    Discover, Offer, Request, Ack, Nak, ..." ([dhcp4/packet.go] is not
    part of the sources at hand). *)
Inductive MessageType :=
  | MsgDiscover | MsgOffer | MsgRequest | MsgDecline
  | MsgAck | MsgNack | MsgRelease | MsgInform.

(** Modelled from the spec: the states reported to the event sink; the
    names are those used in [serveDHCP] and [logTFTPTransfer]. *)
Inductive machineState :=
  | machineStateProxyDHCP | machineStateProxyDHCPIpxe
  | machineStateTFTP | machineStateIgnored.

(** An [error] remembers the call that built it: [errors.New(msg)] or
    [fmt.Errorf(format, args...)].  The operands of a formatting call
    are kept as they were passed, tagged with their Go type. *)
Inductive error :=
  | errors_New (msg : string)
  | fmt_Errorf (format : string) (args : list arg)
with arg :=
  | AInt (n : Z)
  | AStr (s : string)
  | AHw (a : HardwareAddr)
  | AIP (ip : IP)
  | AType (t : MessageType)
  | AErr (e : error).

(** One call of [s.log], [s.debug] or [s.machineEvent]. *)
Inductive LogEntry :=
  | Log (subsystem format : string) (args : list arg)
  | Debug (subsystem format : string) (args : list arg)
  | MachineEvent (mac : HardwareAddr) (state : machineState)
      (format : string) (args : list arg).

(** Modelled from the spec: "Packet: message type; 4-byte transaction
    identifier; broadcast flag; client/your/server/relay IPv4 addresses;
    hardware address; server host-name string; boot-file name string;
    an options collection mapping a numeric code (0-255) to a raw byte
    value".  The field names are those the sources use.  An option that
    is present holds a non-nil slice, as the decoder produces them, so
    [Options[k] != nil] is [is_Some (Options !! k)]. *)
Record Packet := {
  Packet_Type : MessageType;
  Packet_TransactionID : list byte;
  Packet_Broadcast : bool;
  Packet_HardwareAddr : HardwareAddr;
  Packet_ClientAddr : IP;
  Packet_YourAddr : IP;
  Packet_ServerAddr : IP;
  Packet_RelayAddr : IP;
  Packet_BootServerName : string;
  Packet_BootFilename : string;
  Packet_Options : gmap Z (list byte)
}.

(** Modelled from the spec: "Machine: {hardware address, architecture
    enumeration}" ([types.Machine]). *)
Record Machine := {
  Machine_MAC : HardwareAddr;
  Machine_Arch : Architecture
}.

(** Modelled from the spec: the option codes of [dhcp4/options.go],
    which is not part of the sources at hand.  The specification names
    the options ("server-identifier, vendor-class-identifier,
    vendor-specific encapsulated options, client-system-architecture,
    client machine identifier/GUID"); the numbers are those of RFC 2132
    and RFC 4578, and 93 and 97 are also spelled out in the messages of
    [server/dhcp.go]. *)
Definition OptVendorSpecific : Option_ := 43.
Definition OptServerIdentifier : Option_ := 54.
Definition OptVendorIdentifier : Option_ := 60.
Definition OptClientSystem : Option_ := 93.
Definition OptUidGuidClientIdentifier : Option_ := 97.

(** [txType]: how a packet is put on the wire ([dhcp4/conn.go]). *)
Abbreviation txType := Z (only parsing).
Definition txBroadcast : txType := 0.
Definition txRelayAddr : txType := 1.
Definition txClientAddr : txType := 2.
Definition txHardwareAddr : txType := 3.

(** A [net.Addr] of an interface: the [*net.IPNet] case, and any other
    dynamic type. *)
Inductive Addr :=
  | IPNet (ip : IP) (mask : list byte)
  | OtherAddr (network text : string).

(** A [net.Interface], with what [intf.Addrs()] returns for it. *)
Record Interface := {
  Interface_Index : Z;
  Interface_Name : string;
  Interface_Addrs : error + list Addr
}.

(** The parts of the repository that the sources at hand use but do
    not contain: the constants of package [constants], the boot
    specification of package [types], and the codec of package
    [dhcp4].  The development is parametric in them. *)
Class Packages := {
  ArchIA32 : Architecture;
  ArchX64 : Architecture;
  ArchArm64 : Architecture;
  FirmwareX86PC : Firmware;
  FirmwareEFI32 : Firmware;
  FirmwareEFI64 : Firmware;
  FirmwareEFIBC : Firmware;
  FirmwareX86Ipxe : Firmware;
  FirmwarePixiecoreIpxe : Firmware;
  FirmwareEfiArm64 : Firmware;
  Spec : Type;
  Options_Uint16 : gmap Z (list byte) -> Option_ -> error + Z;
  Options_String : gmap Z (list byte) -> Option_ -> error + string;
  Options_Marshal : gmap Z (list byte) -> error + list byte;
  Packet_Marshal : Packet -> error + list byte;
  Packet_txType : Packet -> txType;
  Packet_DebugString : Packet -> string;
  Unmarshal : list byte -> error + Packet
}.

(** The firmware constants label the cases of one [switch] in
    [offerDHCP], so the compiler has checked that they are distinct. *)
Definition firmwareConstants `{Packages} : list Firmware :=
  [FirmwareX86PC; FirmwareX86Ipxe; FirmwareEFI32; FirmwareEFI64;
   FirmwareEFIBC; FirmwareEfiArm64; FirmwarePixiecoreIpxe].

(** Modelled from the spec: the server, with the fields the sources
    read: the external boot-policy provider ("a function Machine ->
    BootSpec | nil | error"), the image map ("FirmwareType ->
    boot-image byte blob") and the injected configuration. *)
Record Server `{Packages} := {
  Server_Booter : Machine -> error + option Spec;
  Server_Ipxe : gmap Z (list byte);
  Server_Address : string;
  Server_DHCPPort : Z;
  Server_TFTPPort : Z;
  Server_HTTPPort : Z
}.

Definition setOption (p : Packet) (k : Option_) (v : list byte) : Packet :=
  {| Packet_Type := Packet_Type p;
     Packet_TransactionID := Packet_TransactionID p;
     Packet_Broadcast := Packet_Broadcast p;
     Packet_HardwareAddr := Packet_HardwareAddr p;
     Packet_ClientAddr := Packet_ClientAddr p;
     Packet_YourAddr := Packet_YourAddr p;
     Packet_ServerAddr := Packet_ServerAddr p;
     Packet_RelayAddr := Packet_RelayAddr p;
     Packet_BootServerName := Packet_BootServerName p;
     Packet_BootFilename := Packet_BootFilename p;
     Packet_Options := <[k := v]> (Packet_Options p) |}.

Definition setBootServerName (p : Packet) (name : string) : Packet :=
  {| Packet_Type := Packet_Type p;
     Packet_TransactionID := Packet_TransactionID p;
     Packet_Broadcast := Packet_Broadcast p;
     Packet_HardwareAddr := Packet_HardwareAddr p;
     Packet_ClientAddr := Packet_ClientAddr p;
     Packet_YourAddr := Packet_YourAddr p;
     Packet_ServerAddr := Packet_ServerAddr p;
     Packet_RelayAddr := Packet_RelayAddr p;
     Packet_BootServerName := name;
     Packet_BootFilename := Packet_BootFilename p;
     Packet_Options := Packet_Options p |}.

Definition setBootFilename (p : Packet) (name : string) : Packet :=
  {| Packet_Type := Packet_Type p;
     Packet_TransactionID := Packet_TransactionID p;
     Packet_Broadcast := Packet_Broadcast p;
     Packet_HardwareAddr := Packet_HardwareAddr p;
     Packet_ClientAddr := Packet_ClientAddr p;
     Packet_YourAddr := Packet_YourAddr p;
     Packet_ServerAddr := Packet_ServerAddr p;
     Packet_RelayAddr := Packet_RelayAddr p;
     Packet_BootServerName := Packet_BootServerName p;
     Packet_BootFilename := name;
     Packet_Options := Packet_Options p |}.

(** ** server/dhcp.go *)

Section DHCP.
Context `{Packages}.

(** [isBootDHCP]: [None] is the [nil] error. *)
Definition isBootDHCP (pkt : Packet) : option error :=
  match Packet_Type pkt with
  | MsgDiscover =>
      match Packet_Options pkt !! OptClientSystem with
      | None => Some (errors_New "not a PXE boot request (missing option 93)")
      | Some _ => None
      end
  | t => Some (fmt_Errorf "packet is %s, not %s" [AType t; AType MsgDiscover])
  end.

Fixpoint hasAnyPrefix (s : string) (prefixes : list string) : bool :=
  match prefixes with
  | [] => false
  | prefix :: prefixes' =>
      if strings_HasPrefix s prefix then true else hasAnyPrefix s prefixes'
  end.

Definition rpiPrefixes : list string :=
  ["28:cd:c1:"; "b8:27:eb:"; "d8:3a:dd:"; "dc:a6:32:"; "e4:5f:01:"].

(** The second [switch] of [validateDHCP] (lines 132-159): the
    architecture and firmware type chosen from the PXE architecture
    code alone, with the debug lines written on the way. *)
Definition archSwitch (pkt : Packet) (fwt : Z)
  : list LogEntry * (error + (Architecture * Firmware)) :=
  match fwt with
  | 0 => ([Debug "DHCP" "We got an x86 BIOS client" []], inr (ArchIA32, FirmwareX86PC))
  | 6 => ([Debug "DHCP" "We got an x86 EFI client" []], inr (ArchIA32, FirmwareEFI32))
  | 7 => ([Debug "DHCP" "We got an x64 EFI client" []], inr (ArchX64, FirmwareEFI64))
  | 9 => ([], inr (ArchX64, FirmwareEFIBC))
  | 11 => ([Debug "DHCP" "We got an ARM64 client" []], inr (ArchArm64, FirmwareEfiArm64))
  | 16 => ([], inl (fmt_Errorf
             "unsupported client firmware type (probably http4 x64 efi boot)" []))
  | 19 => ([], inl (fmt_Errorf
             "unsupported client firmware type (probably http4 arm64 efi boot)" []))
  | _ => ([Debug "DHCP" (Packet_DebugString pkt) []],
          inl (fmt_Errorf "unsupported client firmware type '%d'" [AInt fwt]))
  end.

(** The user-class block of [validateDHCP] (lines 166-181). *)
Definition userClassRefine (pkt : Packet) (fwtype : Firmware) : Firmware :=
  match Options_String (Packet_Options pkt) 77 with
  | inr userClass =>
      let fwtype :=
        if String.eqb userClass "iPXE" && (fwtype =? FirmwareX86PC)
        then FirmwareX86Ipxe else fwtype in
      if String.eqb userClass "pixiecore" then FirmwarePixiecoreIpxe else fwtype
  | inl _ => fwtype
  end.

(** The GUID block of [validateDHCP] (lines 183-197): [None] when
    the option passes. *)
Definition guidCheck (pkt : Packet) : option error :=
  let guid := default [] (Packet_Options pkt !! OptUidGuidClientIdentifier) in
  if Nat.eqb (length guid) 0 then None
  else if Nat.eqb (length guid) 17 then
    if negb (byteAt guid 0 =? 0)%N
    then Some (errors_New "malformed client GUID (option 97), leading byte must be zero")
    else None
  else Some (errors_New "malformed client GUID (option 97), wrong size").

(** [validateDHCP]: the debug lines it writes, and its result. *)
Definition validateDHCP (s : Server) (pkt : Packet)
  : list LogEntry * (error + (Machine * Firmware)) :=
  match Options_Uint16 (Packet_Options pkt) OptClientSystem with
  | inl err =>
      ([], inl (fmt_Errorf "malformed DHCP option 93 (required for PXE): %s" [AErr err]))
  | inr fwt =>
      if hasAnyPrefix (HardwareAddr_String (Packet_HardwareAddr pkt)) rpiPrefixes
         && (fwt =? 0)
      then ([Debug "DHCP" "We think we got an RPI client" []],
            inl (fmt_Errorf "unsupported client firmware type '%d'" [AInt fwt]))
      else
        match archSwitch pkt fwt with
        | (dbg, inl err) => (dbg, inl err)
        | (dbg, inr (arch, fwtype)) =>
            let fwtype := userClassRefine pkt fwtype in
            match guidCheck pkt with
            | Some err => (dbg, inl err)
            | None =>
                (dbg, inr ({| Machine_MAC := Packet_HardwareAddr pkt;
                              Machine_Arch := arch |}, fwtype))
            end
        end
  end.

(** The vendor options of the two x86 cases: [dhcp4.Options{6: []byte{8}}]. *)
Definition pxeBypass : gmap Z (list byte) := {[ 6 := [x08] ]}.

Definition offerDHCP (s : Server) (pkt : Packet) (mach : Machine)
    (serverIP : IP) (fwtype : Firmware) : error + Packet :=
  let resp :=
    {| Packet_Type := MsgOffer;
       Packet_TransactionID := Packet_TransactionID pkt;
       Packet_Broadcast := true;
       Packet_HardwareAddr := Machine_MAC mach;
       Packet_ClientAddr := [];
       Packet_YourAddr := [];
       Packet_ServerAddr := serverIP;
       Packet_RelayAddr := Packet_RelayAddr pkt;
       Packet_BootServerName := "";
       Packet_BootFilename := "";
       Packet_Options := ∅ |} in
  let resp := setOption resp OptServerIdentifier serverIP in
  let resp := setOption resp OptVendorIdentifier (list_byte_of_string "PXEClient") in
  let resp :=
    match Packet_Options pkt !! OptUidGuidClientIdentifier with
    | Some guid => setOption resp OptUidGuidClientIdentifier guid
    | None => resp
    end in
  if fwtype =? FirmwareX86PC then
    match Options_Marshal pxeBypass with
    | inl err => inl (fmt_Errorf "failed to serialize PXE vendor options: %s" [AErr err])
    | inr bs =>
        let resp := setOption resp OptVendorSpecific bs in
        let resp := setBootServerName resp (IP_String serverIP) in
        inr (setBootFilename resp
               (HardwareAddr_String (Machine_MAC mach) +:+ "/" +:+ fmt_d fwtype))
    end
  else if fwtype =? FirmwareX86Ipxe then
    match Options_Marshal pxeBypass with
    | inl err => inl (fmt_Errorf "failed to serialize PXE vendor options: %s" [AErr err])
    | inr bs =>
        let resp := setOption resp OptVendorSpecific bs in
        inr (setBootFilename resp
               ("tftp://" +:+ IP_String serverIP +:+ "/"
                +:+ HardwareAddr_String (Machine_MAC mach) +:+ "/" +:+ fmt_d fwtype))
    end
  else if (fwtype =? FirmwareEFI32) || (fwtype =? FirmwareEFI64)
          || (fwtype =? FirmwareEFIBC) || (fwtype =? FirmwareEfiArm64) then
    let resp := setBootServerName resp (IP_String serverIP) in
    inr (setBootFilename resp
           (HardwareAddr_String (Machine_MAC mach) +:+ "/" +:+ fmt_d fwtype))
  else if fwtype =? FirmwarePixiecoreIpxe then
    inr (setBootFilename resp
           ("http://" +:+ IP_String serverIP +:+ ":" +:+ fmt_d (Server_HTTPPort s)
            +:+ "/_/ipxe?arch=" +:+ fmt_d (Machine_Arch mach)
            +:+ "&mac=" +:+ HardwareAddr_String (Machine_MAC mach)))
  else inl (fmt_Errorf "unknown firmware type %d" [AInt fwtype]).

(** One pass of the inner loop of [interfaceIP]: the first address
    that is a [*net.IPNet], has a 4-byte form, and satisfies [f]. *)
Fixpoint scanAddrs (f : IP -> bool) (addrs : list Addr) : option IP :=
  match addrs with
  | [] => None
  | IPNet ipaddr _ :: addrs' =>
      match IP_To4 ipaddr with
      | None => scanAddrs f addrs'
      | Some ip => if f ip then Some ip else scanAddrs f addrs'
      end
  | OtherAddr _ _ :: addrs' => scanAddrs f addrs'
  end.

(** The outer loop of [interfaceIP], over the predicates [fs]. *)
Fixpoint scanTiers (fs : list (IP -> bool)) (addrs : list Addr) : option IP :=
  match fs with
  | [] => None
  | f :: fs' =>
      match scanAddrs f addrs with
      | Some ip => Some ip
      | None => scanTiers fs' addrs
      end
  end.

Definition interfaceIP (intf : Interface) : error + IP :=
  match Interface_Addrs intf with
  | inl err => inl err
  | inr addrs =>
      match scanTiers [IP_IsGlobalUnicast; IP_IsLinkLocalUnicast; IP_IsLoopback] addrs with
      | Some ip => inr ip
      | None => inl (errors_New "no usable unicast address configured on interface")
      end
  end.

End DHCP.

(** ** dhcp4/conn.go *)

(** What [RecvDHCP] returns: the error, or the packet with the
    interface it arrived on, "which may be nil if interface
    information cannot be obtained". *)
Definition RecvResult : Type := error + (Packet * option Interface).

(** The interface [Conn], over the state [C] of an implementation.
    [SendDHCP] returns [None] for the [nil] error. *)
Class Conn (C : Type) := {
  RecvDHCP : C -> C * RecvResult;
  SendDHCP : C -> Packet -> Interface -> C * option error
}.

Definition dhcpClientPort : Z := 68.

Record UDPAddr := {
  UDPAddr_IP : IP;
  UDPAddr_Port : Z
}.

Record ControlMessage := {
  ControlMessage_IfIndex : Z
}.

(** One call of [WriteTo] on the socket. *)
Record Datagram := {
  Datagram_bytes : list byte;
  Datagram_cm : option ControlMessage;
  Datagram_dst : UDPAddr
}.

(** The [ipv4.PacketConn] under a [portableConn], as the program sees
    it: what the coming [ReadFrom] calls return (the error, or the
    datagram and its control message), the error of a read once
    nothing more arrives (the read deadline, or the closed socket),
    the [WriteTo] calls made so far with their results, the result
    the socket gives a write, and the system's interface table. *)
Record PacketConn := {
  PacketConn_reads : list (error + (list byte * ControlMessage));
  PacketConn_deadline : error;
  PacketConn_writes : list (Datagram * option error);
  PacketConn_writeResult : Datagram -> option error;
  PacketConn_InterfaceByIndex : Z -> error + Interface
}.

Definition WriteTo (c : PacketConn) (b : list byte) (cm : option ControlMessage)
    (dst : UDPAddr) : PacketConn * option error :=
  let d := {| Datagram_bytes := b; Datagram_cm := cm; Datagram_dst := dst |} in
  let r := PacketConn_writeResult c d in
  ({| PacketConn_reads := PacketConn_reads c;
      PacketConn_deadline := PacketConn_deadline c;
      PacketConn_writes := PacketConn_writes c ++ [(d, r)];
      PacketConn_writeResult := PacketConn_writeResult c;
      PacketConn_InterfaceByIndex := PacketConn_InterfaceByIndex c |}, r).

Section PortableConn.
Context `{Packages}.

(** The loop of [portableConn.RecvDHCP] over the reads to come: a
    datagram that does not decode is skipped.  The buffer holds 1500
    bytes. *)
Fixpoint recvLoop (byIndex : Z -> error + Interface) (deadline : error)
    (reads : list (error + (list byte * ControlMessage)))
  : list (error + (list byte * ControlMessage)) * RecvResult :=
  match reads with
  | [] => ([], inl deadline)
  | inl err :: reads' => (reads', inl err)
  | inr (buf, cm) :: reads' =>
      match Unmarshal (take 1500 buf) with
      | inl _ => recvLoop byIndex deadline reads'
      | inr pkt =>
          match byIndex (ControlMessage_IfIndex cm) with
          | inl err => (reads', inl err)
          | inr intf => (reads', inr (pkt, Some intf))
          end
      end
  end.

Definition portableConn_RecvDHCP (c : PacketConn) : PacketConn * RecvResult :=
  let '(reads', r) :=
    recvLoop (PacketConn_InterfaceByIndex c) (PacketConn_deadline c) (PacketConn_reads c) in
  ({| PacketConn_reads := reads';
      PacketConn_deadline := PacketConn_deadline c;
      PacketConn_writes := PacketConn_writes c;
      PacketConn_writeResult := PacketConn_writeResult c;
      PacketConn_InterfaceByIndex := PacketConn_InterfaceByIndex c |}, r).

Definition portableConn_SendDHCP (c : PacketConn) (pkt : Packet) (intf : Interface)
  : PacketConn * option error :=
  match Packet_Marshal pkt with
  | inl err => (c, Some err)
  | inr b =>
      let t := Packet_txType pkt in
      if (t =? txBroadcast) || (t =? txHardwareAddr) then
        WriteTo c b (Some {| ControlMessage_IfIndex := Interface_Index intf |})
          {| UDPAddr_IP := IPv4bcast; UDPAddr_Port := dhcpClientPort |}
      else if t =? txRelayAddr then
        WriteTo c b None {| UDPAddr_IP := Packet_RelayAddr pkt; UDPAddr_Port := 67 |}
      else if t =? txClientAddr then
        WriteTo c b None
          {| UDPAddr_IP := Packet_ClientAddr pkt; UDPAddr_Port := dhcpClientPort |}
      else (c, Some (errors_New "unknown TX type for packet"))
  end.

#[export] Instance portableConn : Conn PacketConn := {
  RecvDHCP := portableConn_RecvDHCP;
  SendDHCP := portableConn_SendDHCP
}.

End PortableConn.

(** A [Conn] for tests: it replays the results of [RecvDHCP] from a
    script, fails with [Script_closed] once the script is used up, and
    keeps the packets that [SendDHCP] accepted. *)
Record Script := {
  Script_recv : list RecvResult;
  Script_closed : error;
  Script_sent : list (Packet * Interface);
  Script_sendResult : Packet -> option error
}.

Definition Script_RecvDHCP (c : Script) : Script * RecvResult :=
  match Script_recv c with
  | [] => (c, inl (Script_closed c))
  | r :: rest =>
      ({| Script_recv := rest;
          Script_closed := Script_closed c;
          Script_sent := Script_sent c;
          Script_sendResult := Script_sendResult c |}, r)
  end.

Definition Script_SendDHCP (c : Script) (pkt : Packet) (intf : Interface)
  : Script * option error :=
  match Script_sendResult c pkt with
  | Some err => (c, Some err)
  | None =>
      ({| Script_recv := Script_recv c;
          Script_closed := Script_closed c;
          Script_sent := Script_sent c ++ [(pkt, intf)];
          Script_sendResult := Script_sendResult c |}, None)
  end.

#[export] Instance scriptConn : Conn Script := {
  RecvDHCP := Script_RecvDHCP;
  SendDHCP := Script_SendDHCP
}.

(** ** The negotiation loop of server/dhcp.go *)

(** How one pass of the loop body ends: [continue] (or the end of the
    body), or [return err]. *)
Inductive Outcome :=
  | Continue
  | Return (err : error).

(** The error of line 37. *)
Definition noInterfaceError : error :=
  fmt_Errorf
    "received DHCP packet with no interface information (this is a violation of dhcp4.Conn's contract, please file a bug)"
    [].

Section ServeDHCP.
Context `{Packages} {C : Type} `{Conn C}.

(** The body of the [for] loop of [serveDHCP]: the connection after
    it, the lines it logged, and how it ended. *)
Definition serveDHCP_body (s : Server) (conn : C) : C * list LogEntry * Outcome :=
  let '(conn, r) := RecvDHCP conn in
  match r with
  | inl err => (conn, [], Return (fmt_Errorf "receiving DHCP packet: %s" [AErr err]))
  | inr (pkt, None) => (conn, [], Return noInterfaceError)
  | inr (pkt, Some intf) =>
      let hw := Packet_HardwareAddr pkt in
      match isBootDHCP pkt with
      | Some err =>
          (conn, [Debug "DHCP" "Ignoring packet from %s: %s" [AHw hw; AErr err]], Continue)
      | None =>
          let '(dbg, v) := validateDHCP s pkt in
          match v with
          | inl err =>
              (conn, dbg ++ [Log "DHCP" "Unusable packet from %s: %s" [AHw hw; AErr err]],
               Continue)
          | inr (mach, fwtype) =>
              let l1 := dbg ++ [Debug "DHCP" "Got valid request to boot %s (%s)"
                                  [AHw (Machine_MAC mach); AInt (Machine_Arch mach)]] in
              match Server_Booter s mach with
              | inl err =>
                  (conn, l1 ++ [Log "DHCP" "Couldn't get bootspec for %s: %s"
                                  [AHw hw; AErr err]], Continue)
              | inr None =>
                  (conn, l1 ++ [Debug "DHCP" "No boot spec for %s, ignoring boot request"
                                  [AHw hw];
                                MachineEvent hw machineStateIgnored
                                  "Machine should not netboot" []], Continue)
              | inr (Some spec) =>
                  let l2 := l1 ++ [Log "DHCP" "Offering to boot %s" [AHw hw];
                                   if fwtype =? FirmwarePixiecoreIpxe
                                   then MachineEvent hw machineStateProxyDHCPIpxe
                                          "Offering to boot iPXE" []
                                   else MachineEvent hw machineStateProxyDHCP
                                          "Offering to boot" []] in
                  match interfaceIP intf with
                  | inl err =>
                      (conn, l2 ++ [Log "DHCP"
                         "Want to boot %s on %s, but couldn't get a source address: %s"
                         [AHw hw; AStr (Interface_Name intf); AErr err]], Continue)
                  | inr serverIP =>
                      match offerDHCP s pkt mach serverIP fwtype with
                      | inl err =>
                          (conn, l2 ++ [Log "DHCP"
                             "Failed to construct ProxyDHCP offer for %s: %s"
                             [AHw hw; AErr err]], Continue)
                      | inr resp =>
                          let '(conn, sent) := SendDHCP conn resp intf in
                          match sent with
                          | Some err =>
                              (conn, l2 ++ [Log "DHCP"
                                 "Failed to send ProxyDHCP offer for %s: %s"
                                 [AHw hw; AErr err]], Continue)
                          | None => (conn, l2, Continue)
                          end
                      end
                  end
              end
          end
      end
  end.

(** The [for] loop, run for at most [fuel] passes: [None] when the
    loop is still running after them. *)
Fixpoint serveDHCP_loop (fuel : nat) (s : Server) (conn : C)
  : C * list LogEntry * option error :=
  match fuel with
  | O => (conn, [], None)
  | S fuel' =>
      match serveDHCP_body s conn with
      | (conn, l, Return err) => (conn, l, Some err)
      | (conn, l, Continue) =>
          let '(conn, l', r) := serveDHCP_loop fuel' s conn in
          (conn, l ++ l', r)
      end
  end.

Definition serveDHCP (fuel : nat) (s : Server) (conn : C)
  : C * list LogEntry * option error :=
  let '(conn, l, r) := serveDHCP_loop fuel s conn in
  (conn,
   Debug "DHCP" "Listening for DHCP requests on %s:%d"
     [AStr (Server_Address s); AInt (Server_DHCPPort s)] :: l,
   r).

End ServeDHCP.

(** ** server/tftp.go *)

Section TFTP.
Context `{Packages}.

Definition extractInfo (path : string) : error + (HardwareAddr * Z) :=
  match strings_Split path "/" with
  | [mac; code] =>
      match net_ParseMAC mac with
      | None => inl (fmt_Errorf "invalid MAC address %q" [AStr mac])
      | Some mac =>
          match strconv_Atoi code with
          | None => inl (errors_New "not found")
          | Some i => inr (mac, i)
          end
      end
  | _ => inl (errors_New "not found")
  end.

(** [handleTFTP]: the bytes the returned reader yields, and the
    announced size. *)
Definition handleTFTP (s : Server) (path : string) (clientAddr : UDPAddr)
  : error + (list byte * Z) :=
  match extractInfo path with
  | inl _ => inl (fmt_Errorf "unknown path %q" [AStr path])
  | inr (_, i) =>
      match Server_Ipxe s !! i with
      | None => inl (fmt_Errorf "unknown firmware type %d" [AInt i])
      | Some bs => inr (bs, Z.of_nat (length bs))
      end
  end.

End TFTP.

(** ** Words of the specification *)

(** A string without the path separator. *)
Fixpoint noSlash (s : string) : bool :=
  match s with
  | EmptyString => true
  | String c s' => negb (Ascii.eqb c "/") && noSlash s'
  end.

(** The segments of a path written out again, separated by [/]. *)
Fixpoint joinSlash (segs : list string) : string :=
  match segs with
  | [] => ""
  | [seg] => seg
  | seg :: segs' => seg +:+ "/" +:+ joinSlash segs'
  end.

(** The 4-byte form of an interface address, for those that have one. *)
Definition ipv4Of (a : Addr) : option IP :=
  match a with
  | IPNet ip _ => IP_To4 ip
  | OtherAddr _ _ => None
  end.

(** A priority tier of an interface: its IPv4 addresses that satisfy
    [f], in the order the interface lists them. *)
Definition tier (f : IP -> bool) (addrs : list Addr) : list IP :=
  filter (fun ip => f ip = true) (omap ipv4Of addrs).

(** A run of decimal digits, at least one. *)
Fixpoint allDigits (s : string) : bool :=
  match s with
  | EmptyString => false
  | String c EmptyString => bool_decide (is_Some (decDigit c))
  | String c s' => bool_decide (is_Some (decDigit c)) && allDigits s'
  end.

(** The receive results that end the loop, with the error returned:
    a failed receive, and a packet without interface information. *)
Definition fatal (r : RecvResult) : option error :=
  match r with
  | inl err => Some (fmt_Errorf "receiving DHCP packet: %s" [AErr err])
  | inr (_, None) => Some noInterfaceError
  | inr (_, Some _) => None
  end.

Section Faults.
Context `{Packages}.

(** The request [pkt], arrived on [intf], gets the offer [resp]:
    every step up to the construction of the offer succeeds. *)
Definition offered (s : Server) (pkt : Packet) (intf : Interface) (resp : Packet) : Prop :=
  exists mach fwtype spec serverIP,
    isBootDHCP pkt = None
    /\ (validateDHCP s pkt).2 = inr (mach, fwtype)
    /\ Server_Booter s mach = inr (Some spec)
    /\ interfaceIP intf = inr serverIP
    /\ offerDHCP s pkt mach serverIP fwtype = inr resp.

(** The per-packet faults before the send, each with the line
    logged for it last: a packet that is no PXE request, a validation
    error, an error or a nil result of the boot-policy provider, no
    address on the arrival interface, and an offer that cannot be
    constructed. *)
Inductive PacketFault (s : Server) (pkt : Packet) (intf : Interface) : LogEntry -> Prop :=
  | FaultNotPXE err :
      isBootDHCP pkt = Some err ->
      PacketFault s pkt intf
        (Debug "DHCP" "Ignoring packet from %s: %s" [AHw (Packet_HardwareAddr pkt); AErr err])
  | FaultValidation err :
      isBootDHCP pkt = None ->
      (validateDHCP s pkt).2 = inl err ->
      PacketFault s pkt intf
        (Log "DHCP" "Unusable packet from %s: %s" [AHw (Packet_HardwareAddr pkt); AErr err])
  | FaultProvider mach fwtype err :
      isBootDHCP pkt = None ->
      (validateDHCP s pkt).2 = inr (mach, fwtype) ->
      Server_Booter s mach = inl err ->
      PacketFault s pkt intf
        (Log "DHCP" "Couldn't get bootspec for %s: %s"
           [AHw (Packet_HardwareAddr pkt); AErr err])
  | FaultNoSpec mach fwtype :
      isBootDHCP pkt = None ->
      (validateDHCP s pkt).2 = inr (mach, fwtype) ->
      Server_Booter s mach = inr None ->
      PacketFault s pkt intf
        (MachineEvent (Packet_HardwareAddr pkt) machineStateIgnored
           "Machine should not netboot" [])
  | FaultInterface mach fwtype spec err :
      isBootDHCP pkt = None ->
      (validateDHCP s pkt).2 = inr (mach, fwtype) ->
      Server_Booter s mach = inr (Some spec) ->
      interfaceIP intf = inl err ->
      PacketFault s pkt intf
        (Log "DHCP" "Want to boot %s on %s, but couldn't get a source address: %s"
           [AHw (Packet_HardwareAddr pkt); AStr (Interface_Name intf); AErr err])
  | FaultOffer mach fwtype spec serverIP err :
      isBootDHCP pkt = None ->
      (validateDHCP s pkt).2 = inr (mach, fwtype) ->
      Server_Booter s mach = inr (Some spec) ->
      interfaceIP intf = inr serverIP ->
      offerDHCP s pkt mach serverIP fwtype = inl err ->
      PacketFault s pkt intf
        (Log "DHCP" "Failed to construct ProxyDHCP offer for %s: %s"
           [AHw (Packet_HardwareAddr pkt); AErr err]).

End Faults.

(** The connection after [n] passes of the loop body. *)
Fixpoint afterPasses `{Packages} {C : Type} `{Conn C} (n : nat) (s : Server) (conn : C) : C :=
  match n with
  | O => conn
  | S n' => afterPasses n' s (serveDHCP_body s conn).1.1
  end.

(** The fixed table of the specification: "0 -> (32-bit, BIOS-PXE);
    6 -> (32-bit, EFI32); 7 -> (64-bit, EFI64); 9 -> (64-bit,
    EFI-Byte-Code); 11 -> (ARM64, EFI-ARM64)". *)
Definition archTable `{Packages} : list (Z * (Architecture * Firmware)) :=
  [(0, (ArchIA32, FirmwareX86PC));
   (6, (ArchIA32, FirmwareEFI32));
   (7, (ArchX64, FirmwareEFI64));
   (9, (ArchX64, FirmwareEFIBC));
   (11, (ArchArm64, FirmwareEfiArm64))].

(** The text of the packet's hardware address starts with one of the
    five vendor prefixes. *)
Definition vendorPrefixed (pkt : Packet) : Prop :=
  exists prefix rest,
    prefix ∈ ["28:cd:c1:"; "b8:27:eb:"; "d8:3a:dd:"; "dc:a6:32:"; "e4:5f:01:"]
    /\ HardwareAddr_String (Packet_HardwareAddr pkt) = prefix +:+ rest.

(** The client GUID of the specification: "absent is tolerated;
    present with length 17 and leading byte zero is valid". *)
Definition guidAccepted (pkt : Packet) : Prop :=
  match Packet_Options pkt !! OptUidGuidClientIdentifier with
  | None => True
  | Some guid => guid = [] \/ (length guid = 17%nat /\ guid !! 0%nat = Some x00)
  end.

(** The fields every offer has, in the words of the specification:
    "message type Offer, mirrored transaction id, broadcast flag true,
    hardware address = Machine's, relay address mirrored from request,
    server address = resolved address, server-identifier option =
    server address, vendor-class-identifier option = literal PXEClient,
    client-GUID option mirrored if the request carried one". *)
Definition offerCommon (pkt : Packet) (mach : Machine) (serverIP : IP) (resp : Packet) : Prop :=
  Packet_Type resp = MsgOffer
  /\ Packet_TransactionID resp = Packet_TransactionID pkt
  /\ Packet_Broadcast resp = true
  /\ Packet_HardwareAddr resp = Machine_MAC mach
  /\ Packet_RelayAddr resp = Packet_RelayAddr pkt
  /\ Packet_ServerAddr resp = serverIP
  /\ Packet_Options resp !! OptServerIdentifier = Some serverIP
  /\ Packet_Options resp !! OptVendorIdentifier = Some (list_byte_of_string "PXEClient")
  /\ Packet_Options resp !! OptUidGuidClientIdentifier
     = Packet_Options pkt !! OptUidGuidClientIdentifier.

(** ** An instance to run the development on

    The theorems below hold for every instance of [Packages].  This one
    numbers the constants from 0, reads the option accessors off the
    specification ("typed accessor functions (as-uint16, as-string)",
    a 16-bit integer in network byte order), and reduces the codec to
    the option area written as code-length-value triples. *)
Module Sample.

Definition errOptionNotPresent : error := errors_New "option not present in Options".
Definition errOptionWrongSize : error := errors_New "option value is the wrong size".

Definition Uint16 (o : gmap Z (list byte)) (n : Option_) : error + Z :=
  match o !! n with
  | None => inl errOptionNotPresent
  | Some [hi; lo] => inr (256 * Z.of_N (Byte.to_N hi) + Z.of_N (Byte.to_N lo))
  | Some _ => inl errOptionWrongSize
  end.

Definition String_ (o : gmap Z (list byte)) (n : Option_) : error + string :=
  match o !! n with
  | None => inl errOptionNotPresent
  | Some bs => inr (string_of_list_byte bs)
  end.

Definition byteOfZ (n : Z) : byte := default x00 (Byte.of_N (Z.to_N n)).

Fixpoint tlv (kvs : list (Z * list byte)) : error + list byte :=
  match kvs with
  | [] => inr [xff]
  | (k, v) :: kvs' =>
      if Nat.ltb 255 (length v) then inl (errors_New "option value too long")
      else match tlv kvs' with
           | inl err => inl err
           | inr bs => inr (byteOfZ k :: byteOfZ (Z.of_nat (length v)) :: v ++ bs)
           end
  end.

Definition Marshal (o : gmap Z (list byte)) : error + list byte := tlv (map_to_list o).

(** From the specification: "relay address present => relay; else
    broadcast flag set or no offered address => broadcast; else
    explicit link-layer unicast". *)
Definition txTypeOf (p : Packet) : txType :=
  if negb (Nat.eqb (length (Packet_RelayAddr p)) 0) then txRelayAddr
  else if Packet_Broadcast p || Nat.eqb (length (Packet_YourAddr p)) 0 then txBroadcast
  else txHardwareAddr.

#[export] Instance packages : Packages := {
  ArchIA32 := 0;
  ArchX64 := 1;
  ArchArm64 := 2;
  FirmwareX86PC := 0;
  FirmwareEFI32 := 1;
  FirmwareEFI64 := 2;
  FirmwareEFIBC := 3;
  FirmwareX86Ipxe := 4;
  FirmwarePixiecoreIpxe := 5;
  FirmwareEfiArm64 := 6;
  Spec := string;
  Options_Uint16 := Uint16;
  Options_String := String_;
  Options_Marshal := Marshal;
  Packet_Marshal := fun p => Marshal (Packet_Options p);
  Packet_txType := txTypeOf;
  Packet_DebugString := fun p => HardwareAddr_String (Packet_HardwareAddr p);
  Unmarshal := fun _ => inl (errors_New "packet too short")
}.

Definition mac1 : HardwareAddr := [xaa; xbb; xcc; xdd; xee; xff].
Definition mac2 : HardwareAddr := [xde; xad; xbe; xef; x00; x01].
Definition blob : list byte := list_byte_of_string "ipxe.efi image".

(** A server that boots every machine, with one image, for code 11. *)
Definition server : Server := {|
  Server_Booter := fun _ => inr (Some "boot");
  Server_Ipxe := {[ 11 := blob ]};
  Server_Address := "0.0.0.0";
  Server_DHCPPort := 67;
  Server_TFTPPort := 69;
  Server_HTTPPort := 80
|}.

Definition client : UDPAddr :=
  {| UDPAddr_IP := [x0a; x00; x00; x07]; UDPAddr_Port := 2070 |}.

(** A Discover from [hw] with the options [opts]. *)
Definition discover (hw : HardwareAddr) (opts : list (Z * list byte)) : Packet := {|
  Packet_Type := MsgDiscover;
  Packet_TransactionID := [x12; x34; x56; x78];
  Packet_Broadcast := true;
  Packet_HardwareAddr := hw;
  Packet_ClientAddr := [];
  Packet_YourAddr := [];
  Packet_ServerAddr := [];
  Packet_RelayAddr := [];
  Packet_BootServerName := "";
  Packet_BootFilename := "";
  Packet_Options := list_to_map opts
|}.

Definition rpi : HardwareAddr := [xb8; x27; xeb; x01; x02; x03].
Definition guid0 : list byte := x00 :: replicate 16 x5a.
Definition guid1 : list byte := x01 :: replicate 16 x5a.

Definition mask24 : list byte := [xff; xff; xff; x00].

(** Loopback, link-local, an IPv6 address and a private address. *)
Definition eth0 : Interface := {|
  Interface_Index := 2;
  Interface_Name := "eth0";
  Interface_Addrs := inr
    [IPNet [x7f; x00; x00; x01] mask24;
     IPNet [xa9; xfe; x01; x02] mask24;
     IPNet [xfe; x80; x00; x00; x00; x00; x00; x00;
            x00; x00; x00; x00; x00; x00; x0a; x0b] [];
     IPNet (net_IPv4 x0a x00 x00 x01) mask24;
     IPNet [xc0; xa8; x01; x01] mask24]
|}.

(** Link-local only. *)
Definition eth1 : Interface := {|
  Interface_Index := 3;
  Interface_Name := "eth1";
  Interface_Addrs := inr [OtherAddr "ip" "10.0.0.9"; IPNet [xa9; xfe; x01; x02] mask24]
|}.

(** No IPv4 address. *)
Definition eth2 : Interface := {|
  Interface_Index := 4;
  Interface_Name := "eth2";
  Interface_Addrs := inr
    [IPNet [xfe; x80; x00; x00; x00; x00; x00; x00;
            x00; x00; x00; x00; x00; x00; x0a; x0b] []]
|}.

Definition offer : Packet := {|
  Packet_Type := MsgOffer;
  Packet_TransactionID := [x12; x34; x56; x78];
  Packet_Broadcast := true;
  Packet_HardwareAddr := mac2;
  Packet_ClientAddr := [];
  Packet_YourAddr := [];
  Packet_ServerAddr := [x0a; x00; x00; x01];
  Packet_RelayAddr := [];
  Packet_BootServerName := "10.0.0.1";
  Packet_BootFilename := "de:ad:be:ef:00:01/0";
  Packet_Options := {[ 54 := [x0a; x00; x00; x01] ]}
|}.

(** A socket on which nothing arrives and every write succeeds. *)
Definition socket : PacketConn := {|
  PacketConn_reads := [];
  PacketConn_deadline := errors_New "i/o timeout";
  PacketConn_writes := [];
  PacketConn_writeResult := fun _ => None;
  PacketConn_InterfaceByIndex := fun i =>
    if i =? 2 then inr eth0 else inl (errors_New "no such network interface")
|}.

(** A script of four packets, then the closed socket: a DHCP
    request that is no Discover, a Discover with an unknown
    architecture code, a Discover of an x64 EFI client on [eth0],
    and the same on [eth2], which has no IPv4 address. *)
Definition script : Script := {|
  Script_recv :=
    [inr ({| Packet_Type := MsgRequest;
             Packet_TransactionID := [x00; x00; x00; x01];
             Packet_Broadcast := true;
             Packet_HardwareAddr := mac1;
             Packet_ClientAddr := [];
             Packet_YourAddr := [];
             Packet_ServerAddr := [];
             Packet_RelayAddr := [];
             Packet_BootServerName := "";
             Packet_BootFilename := "";
             Packet_Options := ∅ |}, Some eth0);
     inr (discover mac1 [(93, [x03; xe7])], Some eth0);
     inr (discover mac2 [(93, [x00; x07])], Some eth0);
     inr (discover mac2 [(93, [x00; x07])], Some eth2)];
  Script_closed := errors_New "use of closed network connection";
  Script_sent := [];
  Script_sendResult := fun _ => None
|}.

(** A connection that hands over one packet without its interface. *)
Definition noInterface : Script := {|
  Script_recv := [inr (discover mac2 [(93, [x00; x07])], None)];
  Script_closed := errors_New "use of closed network connection";
  Script_sent := [];
  Script_sendResult := fun _ => None
|}.

End Sample.


(** ** The rest of server/tftp.go *)

(** [net.JoinHostPort]: a host that contains a colon is put in
    brackets. *)
Fixpoint hasColon (s : string) : bool :=
  match s with
  | EmptyString => false
  | String c s' => Ascii.eqb c ":" || hasColon s'
  end.

Definition net_JoinHostPort (host port : string) : string :=
  if hasColon host then "[" +:+ host +:+ "]:" +:+ port
  else host +:+ ":" +:+ port.

(** [String] of a [*net.UDPAddr], the text the [%s] verb prints for the
    client address of a transfer (an address without zone; the address
    [nil] prints as the empty host). *)
Definition UDPAddr_String (a : UDPAddr) : string :=
  net_JoinHostPort
    (if Nat.eqb (length (UDPAddr_IP a)) 0 then "" else IP_String (UDPAddr_IP a))
    (fmt_d (UDPAddr_Port a)).

(** [logTFTPTransfer]: the lines it logs for a finished transfer; [err]
    is [None] for the [nil] error. *)
Definition logTFTPTransfer `{Packages} (s : Server) (clientAddr : UDPAddr) (path : string)
    (err : option error) : list LogEntry :=
  match extractInfo path with
  | inl pathErr => [Log "TFTP" "unable to extract mac from request:%v" [AErr pathErr]]
  | inr (mac, _) =>
      match err with
      | Some err =>
          [Log "TFTP" "Send of %q to %s failed: %s"
             [AStr path; AStr (UDPAddr_String clientAddr); AErr err]]
      | None =>
          [Log "TFTP" "Sent %q to %s"
             [AStr (HardwareAddr_String mac); AStr (UDPAddr_String clientAddr)];
           MachineEvent mac machineStateTFTP "Sent iPXE to %s"
             [AStr (UDPAddr_String clientAddr)]]
      end
  end.

(** The firmware types whose offer names a file for the file-transfer
    service: BIOS-PXE and the four EFI types. *)
Definition tftpFirmware `{Packages} : list Firmware :=
  [FirmwareX86PC; FirmwareEFI32; FirmwareEFI64; FirmwareEFIBC; FirmwareEfiArm64].

(** The lengths of hardware address that [net.ParseMAC] reads. *)
Definition macLength (a : HardwareAddr) : Prop :=
  length a = 6%nat \/ length a = 8%nat \/ length a = 20%nat.

(** The five vendor prefixes of [validateDHCP] as bytes: the first
    three bytes of the hardware address. *)
Definition vendorOUIs : list (byte * byte * byte) :=
  [(x28, xcd, xc1); (xb8, x27, xeb); (xd8, x3a, xdd); (xdc, xa6, x32); (xe4, x5f, x01)].

(** A datagram that [Unmarshal] refuses. *)
Definition undecodable `{Packages} (r : error + (list byte * ControlMessage)) : Prop :=
  exists buf cm err, r = inr (buf, cm) /\ Unmarshal (take 1500 buf) = inl err.

(** The parts of a socket that neither reading nor writing changes. *)
Definition sameSocket (c c' : PacketConn) : Prop :=
  PacketConn_deadline c' = PacketConn_deadline c
  /\ PacketConn_writeResult c' = PacketConn_writeResult c
  /\ PacketConn_InterfaceByIndex c' = PacketConn_InterfaceByIndex c.

(** The offer [resp] answers the request [pkt] that arrived on [intf]:
    it is an Offer to a Discover carrying option 93, for the same
    transaction and hardware address, and its server address, repeated
    as server identifier, is the 4-byte form of an address of [intf]. *)
Definition answers (pkt : Packet) (intf : Interface) (resp : Packet) : Prop :=
  Packet_Type pkt = MsgDiscover
  /\ is_Some (Packet_Options pkt !! OptClientSystem)
  /\ Packet_Type resp = MsgOffer
  /\ Packet_TransactionID resp = Packet_TransactionID pkt
  /\ Packet_HardwareAddr resp = Packet_HardwareAddr pkt
  /\ Packet_RelayAddr resp = Packet_RelayAddr pkt
  /\ Packet_Options resp !! OptServerIdentifier = Some (Packet_ServerAddr resp)
  /\ exists addrs a,
       Interface_Addrs intf = inr addrs /\ a ∈ addrs
       /\ ipv4Of a = Some (Packet_ServerAddr resp).

(** A socket with two datagrams to come, neither of which decodes
    under the codec of [Sample]. *)
Module Sample2.

Definition busy : PacketConn := {|
  PacketConn_reads :=
    [inr ([x01; x02], {| ControlMessage_IfIndex := 2 |});
     inr ([x03], {| ControlMessage_IfIndex := 2 |})];
  PacketConn_deadline := errors_New "i/o timeout";
  PacketConn_writes := [];
  PacketConn_writeResult := fun _ => None;
  PacketConn_InterfaceByIndex := fun _ => inl (errors_New "no such network interface")
|}.

End Sample2.
(** * Properties *)

(** ** The standard library functions on concrete inputs *)

Example ex_split : strings_Split "aa:bb/11" "/" = ["aa:bb"; "11"].
Proof. reflexivity. Qed.
Example ex_split0 : strings_Split "" "/" = [""].
Proof. reflexivity. Qed.
Example ex_atoi : strconv_Atoi "-12" = Some (-12) /\ strconv_Atoi "+7" = Some 7
  /\ strconv_Atoi "" = None /\ strconv_Atoi "-" = None /\ strconv_Atoi "1x" = None
  /\ strconv_Atoi "9223372036854775808" = None
  /\ strconv_Atoi "-9223372036854775808" = Some minInt.
Proof. vm_compute. repeat split. Qed.
Example ex_mac : net_ParseMAC "aa:bb:cc:dd:ee:ff" = Some [xaa; xbb; xcc; xdd; xee; xff]
  /\ net_ParseMAC "AABB.ccdd.eeff" = Some [xaa; xbb; xcc; xdd; xee; xff]
  /\ net_ParseMAC "aa-bb-cc-dd-ee-ff" = Some [xaa; xbb; xcc; xdd; xee; xff]
  /\ net_ParseMAC "aa:bb-cc:dd:ee:ff" = None
  /\ net_ParseMAC "aa:bb:cc:dd:ee" = None
  /\ net_ParseMAC "not-a-path" = None.
Proof. vm_compute. repeat split. Qed.
Example ex_macstr : HardwareAddr_String [xde; xad; xbe; xef; x00; x01] = "de:ad:be:ef:00:01".
Proof. reflexivity. Qed.
Example ex_ip : IP_String [x0a; x00; x00; x01] = "10.0.0.1"
  /\ IP_String IPv4bcast = "255.255.255.255"
  /\ IP_String IPv6loopback = "::1"
  /\ IP_String [xfe; x80; x00; x00; x00; x00; x00; x00; x00; x00; x00; x00; x00; x00; x0a; x0b] = "fe80::a0b"
  /\ IP_String [x20; x01; x0d; xb8; x00; x00; x00; x00; x00; x01; x00; x00; x00; x00; x00; x01] = "2001:db8::1:0:0:1"
  /\ IP_String [] = "<nil>" /\ IP_String [x01; x02] = "?0102"
  /\ IP_IsGlobalUnicast [x0a; x00; x00; x01] = true
  /\ IP_IsGlobalUnicast [x7f; x00; x00; x01] = false
  /\ IP_IsLoopback [x7f; x00; x00; x01] = true
  /\ IP_IsLinkLocalUnicast [xa9; xfe; x00; x01] = true
  /\ IP_IsGlobalUnicast [xff; xff; xff; xff] = false.
Proof. vm_compute. repeat split. Qed.

Example ex_extractInfo :
  extractInfo "aa:bb:cc:dd:ee:ff/11" = inr ([xaa; xbb; xcc; xdd; xee; xff], 11)
  /\ extractInfo "not-a-path" = inl (errors_New "not found")
  /\ extractInfo "aa:bb:cc:dd:ee:ff/11/x" = inl (errors_New "not found")
  /\ extractInfo "aa:bb:cc:dd:ee:ff/1x" = inl (errors_New "not found")
  /\ extractInfo "aa:bb:cc:dd:ee/11"
     = inl (fmt_Errorf "invalid MAC address %q" [AStr "aa:bb:cc:dd:ee"]).
Proof. vm_compute. repeat split. Qed.

Example ex_handleTFTP :
  handleTFTP Sample.server "aa:bb:cc:dd:ee:ff/999" Sample.client
  = inl (fmt_Errorf "unknown firmware type %d" [AInt 999])
  /\ handleTFTP Sample.server "not-a-path" Sample.client
     = inl (fmt_Errorf "unknown path %q" [AStr "not-a-path"]).
Proof. vm_compute. repeat split. Qed.

(** ** Path grammar *)

Lemma split_nonempty s sep : strings_Split s sep <> [].
Proof. induction s as [|c s IH]; simpl; [done|]. destruct (Ascii.eqb c sep); [done|].
  destruct (strings_Split s sep); done. Qed.

Lemma split_join s : joinSlash (strings_Split s "/") = s.
Proof.
  induction s as [|c s IH]; simpl; [done|].
  destruct (Ascii.eqb_spec c "/") as [->|Hc].
  - pose proof (split_nonempty s "/") as Hne.
    destruct (strings_Split s "/") as [|seg segs] eqn:E; [done|].
    simpl in *. destruct segs; simpl in *; by rewrite IH.
  - pose proof (split_nonempty s "/") as Hne.
    destruct (strings_Split s "/") as [|seg segs] eqn:E; [done|].
    simpl in *. destruct segs; simpl in *; by rewrite <- IH.
Qed.

Lemma split_noSlash s : Forall (fun seg => noSlash seg = true) (strings_Split s "/").
Proof.
  induction s as [|c s IH]; simpl; [by repeat constructor|].
  destruct (Ascii.eqb c "/") eqn:Hc; [by constructor|].
  destruct (strings_Split s "/") as [|seg segs]; [by repeat constructor; simpl; rewrite Hc|].
  inversion IH; subst. constructor; [|done]. simpl. by rewrite Hc.
Qed.

Lemma split_single s : noSlash s = true -> strings_Split s "/" = [s].
Proof.
  induction s as [|c s IH]; simpl; [done|].
  intros [Hc Hs]%andb_prop. apply negb_true_iff in Hc. rewrite Hc, (IH Hs). done.
Qed.

Lemma split_cons a rest :
  noSlash a = true -> strings_Split (a +:+ "/" +:+ rest) "/" = a :: strings_Split rest "/".
Proof.
  induction a as [|c a IH]; simpl; [done|].
  intros [Hc Ha]%andb_prop. apply negb_true_iff in Hc. rewrite Hc, (IH Ha). done.
Qed.

(** A path has exactly two segments when it is [a/b] with no further
    separator in [a] or [b]. *)
Lemma split_two path a b :
  strings_Split path "/" = [a; b]
  <-> path = a +:+ "/" +:+ b /\ noSlash a = true /\ noSlash b = true.
Proof.
  split.
  - intros E. pose proof (split_join path) as J. pose proof (split_noSlash path) as F.
    rewrite E in J, F. simpl in J. inversion F as [|? ? Ha F']; subst.
    inversion F' as [|? ? Hb _]; subst. done.
  - intros (-> & Ha & Hb). rewrite (split_cons _ _ Ha), (split_single _ Hb). done.
Qed.

Lemma decDigits_ge acc s n : 0 <= acc -> decDigits acc s = Some n -> 0 <= n.
Proof.
  revert acc. induction s as [|c s IH]; simpl; intros acc Hacc E; [by simplify_eq|].
  unfold decDigit in E at 1.
  destruct (_ && _) eqn:Hd; [|done]. apply andb_prop in Hd as [?%Z.leb_le ?%Z.leb_le].
  eapply IH; [|done]. lia.
Qed.

Lemma allDigits_head s :
  allDigits s = true -> exists c s', s = String c s' /\ is_Some (decDigit c).
Proof.
  destruct s as [|c s]; simpl; [done|]. intros E. exists c, s. split; [done|].
  destruct s; [|apply andb_prop in E as [E _]]; by apply bool_decide_eq_true in E.
Qed.

Lemma decDigit_not_sign c :
  is_Some (decDigit c) -> Ascii.eqb c "-" = false /\ Ascii.eqb c "+" = false.
Proof.
  intros [d E]. split; apply Ascii.eqb_neq; intros ->; vm_compute in E; done.
Qed.

(** A minus sign in front of an accepted run of digits is accepted too. *)
Lemma atoi_negative d v :
  allDigits d = true -> strconv_Atoi d = Some v -> strconv_Atoi ("-" +:+ d) = Some (- v).
Proof.
  intros Hd E. destruct (allDigits_head _ Hd) as (c & s' & -> & Hc).
  destruct (decDigit_not_sign _ Hc) as [Hm Hp].
  unfold strconv_Atoi in E. rewrite Hm, Hp in E. simpl orb in E. cbv iota in E.
  change ("-" +:+ String c s') with (String "-" (String c s')).
  unfold strconv_Atoi. change (Ascii.eqb "-" "-") with true. simpl orb. cbv iota.
  destruct (decDigits 0 (String c s')) as [n|] eqn:En; [|done].
  pose proof (decDigits_ge _ _ _ (Z.le_refl 0) En) as Hn.
  destruct (_ && _) eqn:Hr in E; [|done]. simplify_eq.
  apply andb_prop in Hr as [_ Hr%Z.leb_le].
  assert ((minInt <=? - v) && (- v <=? maxInt) = true) as ->; [|done].
  apply andb_true_intro. unfold minInt, maxInt in *. split; apply Z.leb_le; lia.
Qed.

(** ** Image dispatch (server/tftp.go) *)

Lemma extractInfo_ok path mac i :
  extractInfo path = inr (mac, i)
  <-> exists a b, strings_Split path "/" = [a; b]
        /\ net_ParseMAC a = Some mac /\ strconv_Atoi b = Some i.
Proof.
  unfold extractInfo. split.
  - destruct (strings_Split path "/") as [|a [|b [|? ?]]]; try done.
    destruct (net_ParseMAC a) as [m|] eqn:Em; [|done].
    destruct (strconv_Atoi b) as [n|] eqn:En; [|done].
    intros [= <- <-]. by exists a, b.
  - intros (a & b & -> & -> & ->). done.
Qed.

Lemma extractInfo_err path e :
  extractInfo path = inl e ->
  (e = errors_New "not found"
   /\ ((forall a b, strings_Split path "/" <> [a; b])
       \/ exists a b mac, strings_Split path "/" = [a; b]
            /\ net_ParseMAC a = Some mac /\ strconv_Atoi b = None))
  \/ exists a b, strings_Split path "/" = [a; b] /\ net_ParseMAC a = None
       /\ e = fmt_Errorf "invalid MAC address %q" [AStr a].
Proof.
  unfold extractInfo.
  destruct (strings_Split path "/") as [|a [|b [|? ?]]] eqn:E;
    try (intros [= <-]; left; split; [done|left; congruence]).
  destruct (net_ParseMAC a) as [m|] eqn:Em.
  - destruct (strconv_Atoi b) as [n|] eqn:En; [done|].
    intros [= <-]. left. split; [done|]. right. by exists a, b, m.
  - intros [= <-]. right. by exists a, b.
Qed.

(** C4, as the code has it: the path parser accepts a path exactly
    when it is [a/b] with no further separator, [a] a MAC address for
    [net.ParseMAC] and [b] an integer for [strconv.Atoi], which takes a
    sign, so that negative codes are accepted; a path of another shape
    or with a second segment that is no integer fails with "not found",
    one whose first segment is no MAC address with "invalid MAC
    address", and the dispatcher reports each of them as "unknown
    path"; an accepted path whose code is not in the image map fails
    with an error naming the code, and one whose code is registered
    returns the stored blob and its length. *)
Theorem handleTFTP_path_grammar `{Packages} (s : Server) (path : string) (clientAddr : UDPAddr) :
  (forall mac i,
     extractInfo path = inr (mac, i)
     <-> exists a b, path = a +:+ "/" +:+ b /\ noSlash a = true /\ noSlash b = true
           /\ net_ParseMAC a = Some mac /\ strconv_Atoi b = Some i)
  /\ (forall a d mac v,
        path = a +:+ "/" +:+ "-" +:+ d -> noSlash a = true -> allDigits d = true ->
        net_ParseMAC a = Some mac -> strconv_Atoi d = Some v ->
        extractInfo path = inr (mac, - v))
  /\ (forall e,
        extractInfo path = inl e ->
        handleTFTP s path clientAddr = inl (fmt_Errorf "unknown path %q" [AStr path])
        /\ ((e = errors_New "not found"
             /\ ((forall a b, strings_Split path "/" <> [a; b])
                 \/ exists a b mac, strings_Split path "/" = [a; b]
                      /\ net_ParseMAC a = Some mac /\ strconv_Atoi b = None))
            \/ exists a b, strings_Split path "/" = [a; b] /\ net_ParseMAC a = None
                 /\ e = fmt_Errorf "invalid MAC address %q" [AStr a]))
  /\ (forall mac i,
        extractInfo path = inr (mac, i) ->
        handleTFTP s path clientAddr =
          match Server_Ipxe s !! i with
          | None => inl (fmt_Errorf "unknown firmware type %d" [AInt i])
          | Some bs => inr (bs, Z.of_nat (length bs))
          end).
Proof.
  split; [|split; [|split]].
  - intros mac i. rewrite extractInfo_ok. split.
    + intros (a & b & E & Hm & Hi). apply split_two in E as (-> & Ha & Hb). by exists a, b.
    + intros (a & b & E & Ha & Hb & Hm & Hi). exists a, b.
      split; [|done]. apply split_two. done.
  - intros a d mac v -> Ha Hd Hm Hv. apply extractInfo_ok.
    exists a, ("-" +:+ d). split; [|split; [done|by apply atoi_negative]].
    apply split_two. split; [done|]. split; [done|].
    clear -Hd. simpl. induction d as [|c d IH]; [done|].
    simpl in *. destruct d as [|c' d].
    + apply bool_decide_eq_true in Hd. apply andb_true_intro. split; [|done].
      apply negb_true_iff, Ascii.eqb_neq. intros ->. destruct Hd as [? Hd]. vm_compute in Hd. done.
    + apply andb_prop in Hd as [Hc Hd]. apply bool_decide_eq_true in Hc.
      apply andb_true_intro. split; [|by apply IH].
      apply negb_true_iff, Ascii.eqb_neq. intros ->. destruct Hc as [? Hc]. vm_compute in Hc. done.
  - intros e E. split; [|by apply extractInfo_err].
    unfold handleTFTP. by rewrite E.
  - intros mac i E. unfold handleTFTP. rewrite E. by destruct (Server_Ipxe s !! i).
Qed.

(** C4 as stated fails twice: a negative code is accepted by the
    parser (and then named in the dispatcher's error), and a first
    segment that is no MAC address is not answered "not found". *)
Lemma handleTFTP_path_grammar_counterexample :
  extractInfo "aa:bb:cc:dd:ee:ff/-1" = inr (Sample.mac1, -1)
  /\ handleTFTP Sample.server "aa:bb:cc:dd:ee:ff/-1" Sample.client
     = inl (fmt_Errorf "unknown firmware type %d" [AInt (-1)])
  /\ extractInfo "not-a-mac/11" = inl (fmt_Errorf "invalid MAC address %q" [AStr "not-a-mac"])
  /\ handleTFTP Sample.server "not-a-mac/11" Sample.client
     = inl (fmt_Errorf "unknown path %q" [AStr "not-a-mac/11"]).
Proof. vm_compute. repeat split. Qed.

Lemma handleTFTP_path_grammar_witness :
  extractInfo "aa:bb:cc:dd:ee:ff/11" = inr (Sample.mac1, 11)
  /\ handleTFTP Sample.server "aa:bb:cc:dd:ee:ff/11" Sample.client
     = inr (Sample.blob, 14).
Proof.
  assert (extractInfo "aa:bb:cc:dd:ee:ff/11" = inr (Sample.mac1, 11)) as E
    by (vm_compute; reflexivity).
  split; [exact E|].
  destruct (handleTFTP_path_grammar Sample.server "aa:bb:cc:dd:ee:ff/11" Sample.client)
    as (_ & _ & _ & Hok).
  rewrite (Hok _ _ E). vm_compute. reflexivity.
Defined.

(** C10: two accepted paths with the same firmware code are answered
    alike, whatever their hardware addresses: the same blob and the
    same length, or the same error. *)
Theorem handleTFTP_only_code `{Packages} (s : Server) (p1 p2 : string)
    (c1 c2 : UDPAddr) (m1 m2 : HardwareAddr) (i : Z) :
  extractInfo p1 = inr (m1, i) ->
  extractInfo p2 = inr (m2, i) ->
  handleTFTP s p1 c1 = handleTFTP s p2 c2
  /\ handleTFTP s p1 c1 =
       match Server_Ipxe s !! i with
       | None => inl (fmt_Errorf "unknown firmware type %d" [AInt i])
       | Some bs => inr (bs, Z.of_nat (length bs))
       end.
Proof.
  intros E1 E2. unfold handleTFTP. rewrite E1, E2.
  split; by destruct (Server_Ipxe s !! i).
Qed.

Lemma handleTFTP_only_code_witness :
  handleTFTP Sample.server "aa:bb:cc:dd:ee:ff/11" Sample.client
  = handleTFTP Sample.server "de-ad-be-ef-00-01/+11" Sample.client
  /\ handleTFTP Sample.server "aa:bb:cc:dd:ee:ff/11" Sample.client = inr (Sample.blob, 14).
Proof.
  destruct (handleTFTP_only_code Sample.server
              "aa:bb:cc:dd:ee:ff/11" "de-ad-be-ef-00-01/+11"
              Sample.client Sample.client Sample.mac1 Sample.mac2 11) as [E1 E2].
  - vm_compute. reflexivity.
  - vm_compute. reflexivity.
  - split; [exact E1|]. rewrite E2. vm_compute. reflexivity.
Defined.

(** ** Interface address resolution *)

Lemma scanAddrs_tier f addrs : scanAddrs f addrs = head (tier f addrs).
Proof.
  unfold tier. induction addrs as [|a addrs IH]; [done|].
  destruct a as [ip mask|n t]; simpl; [|done].
  destruct (IP_To4 ip) as [ip4|]; simpl; [|done].
  destruct (f ip4) eqn:Hf.
  - rewrite filter_cons_True by done. done.
  - rewrite filter_cons_False by congruence. done.
Qed.

Lemma tier_ipv4 f addrs ip :
  ip ∈ tier f addrs -> f ip = true /\ exists a, a ∈ addrs /\ ipv4Of a = Some ip.
Proof.
  unfold tier. intros [Hf Hin]%list_elem_of_filter. split; [done|].
  apply list_elem_of_omap in Hin. done.
Qed.

(** C8: the addresses of the interface are scanned tier by tier, global
    unicast, then link-local unicast, then loopback, each tier over the
    whole list before the next one; the answer is the first IPv4
    address of the first tier that has one, addresses without a 4-byte
    form never count, and the resolution fails, with the no-address
    error, exactly when the three tiers are empty.  (An interface whose
    addresses cannot be listed fails with the error of the listing.) *)
Theorem interfaceIP_tiers (intf : Interface) :
  match Interface_Addrs intf with
  | inl err => interfaceIP intf = inl err
  | inr addrs =>
      let global := tier IP_IsGlobalUnicast addrs in
      let linkLocal := tier IP_IsLinkLocalUnicast addrs in
      let loopback := tier IP_IsLoopback addrs in
      interfaceIP intf =
        match global, linkLocal, loopback with
        | ip :: _, _, _ => inr ip
        | [], ip :: _, _ => inr ip
        | [], [], ip :: _ => inr ip
        | [], [], [] => inl (errors_New "no usable unicast address configured on interface")
        end
      /\ (forall ip, interfaceIP intf = inr ip ->
            length ip = 4%nat /\ exists a, a ∈ addrs /\ ipv4Of a = Some ip)
      /\ (interfaceIP intf = inl (errors_New "no usable unicast address configured on interface")
          <-> global = [] /\ linkLocal = [] /\ loopback = [])
  end.
Proof.
  destruct (Interface_Addrs intf) as [err|addrs] eqn:Ha;
    [by unfold interfaceIP; rewrite Ha|].
  intros global linkLocal loopback.
  assert (interfaceIP intf =
    match global, linkLocal, loopback with
    | ip :: _, _, _ => inr ip
    | [], ip :: _, _ => inr ip
    | [], [], ip :: _ => inr ip
    | [], [], [] => inl (errors_New "no usable unicast address configured on interface")
    end) as E.
  { unfold interfaceIP. rewrite Ha. simpl. rewrite !scanAddrs_tier.
    subst global linkLocal loopback.
    destruct (tier IP_IsGlobalUnicast addrs); simpl; [|done].
    destruct (tier IP_IsLinkLocalUnicast addrs); simpl; [|done].
    destruct (tier IP_IsLoopback addrs); done. }
  split; [exact E|]. subst global linkLocal loopback. split.
  - intros ip Hip. rewrite E in Hip.
    assert (exists f, ip ∈ tier f addrs) as [f Hin].
    { destruct (tier IP_IsGlobalUnicast addrs) as [|g ?] eqn:Eg.
      - destruct (tier IP_IsLinkLocalUnicast addrs) as [|l ?] eqn:El.
        + destruct (tier IP_IsLoopback addrs) as [|o ?] eqn:Eo; [done|]. simplify_eq.
          exists IP_IsLoopback. rewrite Eo. by left.
        + simplify_eq. exists IP_IsLinkLocalUnicast. rewrite El. by left.
      - simplify_eq. exists IP_IsGlobalUnicast. rewrite Eg. by left. }
    apply tier_ipv4 in Hin as (_ & a & Ha' & Hv4). split; [|by exists a].
    destruct a as [ip0 mask|]; simpl in Hv4; [|done]. unfold IP_To4 in Hv4.
    destruct (Nat.eqb_spec (length ip0) 4); [by simplify_eq|].
    destruct (_ && _) eqn:Hc; [|done]. simplify_eq.
    apply andb_prop in Hc as [Hl%Nat.eqb_eq _]. rewrite length_drop. lia.
  - rewrite E. split.
    + intros He. destruct (tier IP_IsGlobalUnicast addrs); [|done].
      destruct (tier IP_IsLinkLocalUnicast addrs); [|done].
      by destruct (tier IP_IsLoopback addrs).
    + intros (-> & -> & ->). done.
Qed.

Lemma interfaceIP_tiers_witness :
  interfaceIP Sample.eth0 = inr [x0a; x00; x00; x01]
  /\ interfaceIP Sample.eth1 = inr [xa9; xfe; x01; x02]
  /\ interfaceIP Sample.eth2
     = inl (errors_New "no usable unicast address configured on interface").
Proof.
  split; [|split].
  - destruct (interfaceIP_tiers Sample.eth0) as [E _]. rewrite E.
    vm_compute. reflexivity.
  - destruct (interfaceIP_tiers Sample.eth1) as [E _]. rewrite E.
    vm_compute. reflexivity.
  - destruct (interfaceIP_tiers Sample.eth2) as (_ & _ & E). apply E.
    vm_compute. repeat split.
Defined.

(** ** Classification (validateDHCP) *)

Lemma HasPrefix_spec s p : strings_HasPrefix s p = true <-> exists rest, s = p +:+ rest.
Proof.
  revert s. induction p as [|c p IH]; intros s.
  - split; [intros _; exists s; reflexivity|intros _; reflexivity].
  - change (String c p +:+ ?r) with (String c (p +:+ r)).
    destruct s as [|d s]; simpl.
    + split; [done|]. by intros [rest ?].
    + rewrite andb_true_iff, IH, Ascii.eqb_eq. split.
      * intros [-> [rest ->]]. by exists rest.
      * intros [rest E]. change (String c p +:+ rest) with (String c (p +:+ rest)) in E.
        injection E as -> ->. split; [done|by exists rest].
Qed.

Lemma hasAnyPrefix_spec s ps :
  hasAnyPrefix s ps = true <-> exists p rest, p ∈ ps /\ s = p +:+ rest.
Proof.
  induction ps as [|p ps IH]; simpl.
  - split; [done|]. intros (p & rest & Hin & _). by apply elem_of_nil in Hin.
  - destruct (strings_HasPrefix s p) eqn:Hp.
    + split; [|done]. intros _. apply HasPrefix_spec in Hp as [rest ->].
      exists p, rest. split; [by left|done].
    + rewrite IH. split.
      * intros (q & rest & Hin & ->). exists q, rest. split; [by right|done].
      * intros (q & rest & Hin & ->). apply elem_of_cons in Hin as [->|Hin].
        -- assert (strings_HasPrefix (p +:+ rest) p = true) as Ht
             by (apply HasPrefix_spec; by exists rest).
           congruence.
        -- by exists q, rest.
Qed.

Lemma vendorPrefixed_spec pkt :
  hasAnyPrefix (HardwareAddr_String (Packet_HardwareAddr pkt)) rpiPrefixes = true
  <-> vendorPrefixed pkt.
Proof. apply hasAnyPrefix_spec. Qed.

Section Classification.
Context `{Packages}.

Lemma archSwitch_table pkt fwt arch fw :
  (fwt, (arch, fw)) ∈ archTable -> (archSwitch pkt fwt).2 = inr (arch, fw).
Proof.
  unfold archTable. rewrite !elem_of_cons, elem_of_nil.
  intros [E|[E|[E|[E|[E|[]]]]]]; by simplify_eq.
Qed.

Lemma archSwitch_other pkt fwt :
  fwt ∉ [0; 6; 7; 9; 11; 16; 19] ->
  archSwitch pkt fwt =
    ([Debug "DHCP" (Packet_DebugString pkt) []],
     inl (fmt_Errorf "unsupported client firmware type '%d'" [AInt fwt])).
Proof.
  rewrite !not_elem_of_cons. intros (?&?&?&?&?&?&?&_).
  destruct fwt as [|p|p]; [congruence| |reflexivity].
  do 5 (try (destruct p as [p|p|]; try reflexivity; try congruence)).
Qed.

(** Past the vendor-prefix guard and the table, the result is
    decided by the user class and the GUID. *)
Lemma validateDHCP_classified s pkt fwt arch fw :
  Options_Uint16 (Packet_Options pkt) OptClientSystem = inr fwt ->
  (fwt = 0 -> ~ vendorPrefixed pkt) ->
  (fwt, (arch, fw)) ∈ archTable ->
  (validateDHCP s pkt).2 =
    match guidCheck pkt with
    | Some err => inl err
    | None => inr ({| Machine_MAC := Packet_HardwareAddr pkt; Machine_Arch := arch |},
                   userClassRefine pkt fw)
    end.
Proof.
  intros Hu Hg Ht. unfold validateDHCP. rewrite Hu.
  destruct (hasAnyPrefix _ _ && _) eqn:Hguard.
  - apply andb_prop in Hguard as [Hp%vendorPrefixed_spec Hz%Z.eqb_eq]. by destruct Hg.
  - pose proof (archSwitch_table pkt _ _ _ Ht) as Ha.
    destruct (archSwitch pkt fwt) as [dbg [err|[a f]]]; simpl in Ha; [done|].
    simplify_eq. by destruct (guidCheck pkt).
Qed.

Lemma guidCheck_spec pkt : guidCheck pkt = None <-> guidAccepted pkt.
Proof.
  unfold guidCheck, guidAccepted.
  destruct (Packet_Options pkt !! OptUidGuidClientIdentifier) as [guid|]; simpl; [|done].
  destruct guid as [|b guid]; [by split; [left|]|].
  change (length (b :: guid)) with (S (length guid)).
  change (byteAt (b :: guid) 0) with (Byte.to_N b).
  change ((b :: guid) !! 0%nat) with (Some b).
  change (Nat.eqb (S (length guid)) 0) with false. cbv iota.
  destruct (Nat.eqb_spec (S (length guid)) 17) as [E|E].
  - destruct (N.eqb_spec (Byte.to_N b) 0) as [Hz|Hz]; simpl.
    + split; [|done]. intros _. right. split; [done|].
      rewrite <- (Byte.of_to_N b), Hz. done.
    + split; [done|]. intros [?|[_ [= ->]]]; done.
  - split; [done|]. intros [?|[? _]]; done.
Qed.

Lemma archSwitch_ok pkt fwt dbg arch fw :
  archSwitch pkt fwt = (dbg, inr (arch, fw)) -> (fwt, (arch, fw)) ∈ archTable.
Proof.
  destruct (decide (fwt ∈ [0; 6; 7; 9; 11; 16; 19])) as [Hin|Hn].
  - rewrite !elem_of_cons, elem_of_nil in Hin.
    destruct Hin as [->|[->|[->|[->|[->|[->|[->|[]]]]]]]]; simpl; intros [= <- <- <-];
      unfold archTable; rewrite !elem_of_cons; tauto.
  - by rewrite (archSwitch_other _ _ Hn).
Qed.

(** Every classification comes from a row of the table, past the
    vendor-prefix guard, with the GUID accepted. *)
Lemma validateDHCP_inv s pkt mach fwtype :
  (validateDHCP s pkt).2 = inr (mach, fwtype) ->
  exists fwt fw,
    Options_Uint16 (Packet_Options pkt) OptClientSystem = inr fwt
    /\ (fwt, (Machine_Arch mach, fw)) ∈ archTable
    /\ (fwt = 0 -> ~ vendorPrefixed pkt)
    /\ guidAccepted pkt
    /\ Machine_MAC mach = Packet_HardwareAddr pkt
    /\ fwtype = userClassRefine pkt fw.
Proof.
  unfold validateDHCP.
  destruct (Options_Uint16 (Packet_Options pkt) OptClientSystem) as [err|fwt]; [done|].
  destruct (hasAnyPrefix _ _ && _) eqn:Hguard; [done|].
  destruct (archSwitch pkt fwt) as [dbg [err|[arch fw]]] eqn:Ha; [done|].
  destruct (guidCheck pkt) eqn:Hg; [done|]. simpl. intros [= <- <-].
  exists fwt, fw. split; [done|]. split; [by eapply archSwitch_ok|].
  split; [|split; [by apply guidCheck_spec|done]].
  intros -> Hp%vendorPrefixed_spec. rewrite Hp in Hguard. done.
Qed.

End Classification.

(** C2: for a packet whose architecture option reads as the 16-bit
    code [fwt], [validateDHCP] follows the fixed table: codes 16 and 19
    are refused with an error naming the HTTP-boot variant, a code
    outside the table with "unsupported client firmware type" quoting
    the code, and every classification comes from the row of the code:
    the architecture is the row's and the firmware type is the row's,
    as the starting point of the user-class refinement.  A code of the
    table is classified when the GUID passes (for code 0, when the
    address has no vendor prefix), and a packet without user class
    gets exactly the row. *)
Theorem validateDHCP_arch_table `{Packages} (s : Server) (pkt : Packet) (fwt : Z) :
  Options_Uint16 (Packet_Options pkt) OptClientSystem = inr fwt ->
  (fwt = 16 ->
     (validateDHCP s pkt).2 = inl (fmt_Errorf
       "unsupported client firmware type (probably http4 x64 efi boot)" []))
  /\ (fwt = 19 ->
        (validateDHCP s pkt).2 = inl (fmt_Errorf
          "unsupported client firmware type (probably http4 arm64 efi boot)" []))
  /\ (fwt ∉ [0; 6; 7; 9; 11; 16; 19] ->
        (validateDHCP s pkt).2 =
          inl (fmt_Errorf "unsupported client firmware type '%d'" [AInt fwt]))
  /\ (forall mach fwtype,
        (validateDHCP s pkt).2 = inr (mach, fwtype) ->
        exists fw,
          (fwt, (Machine_Arch mach, fw)) ∈ archTable
          /\ fwtype = userClassRefine pkt fw)
  /\ (forall arch fw,
        (fwt, (arch, fw)) ∈ archTable ->
        (fwt = 0 -> ~ vendorPrefixed pkt) ->
        (guidAccepted pkt ->
            (validateDHCP s pkt).2 =
              inr ({| Machine_MAC := Packet_HardwareAddr pkt; Machine_Arch := arch |},
                   userClassRefine pkt fw))
        /\ (guidAccepted pkt ->
            forall e, Options_String (Packet_Options pkt) 77 = inl e ->
            (validateDHCP s pkt).2 =
              inr ({| Machine_MAC := Packet_HardwareAddr pkt; Machine_Arch := arch |}, fw))).
Proof.
  intros Hu. split; [|split; [|split; [|split]]].
  - intros ->. unfold validateDHCP. rewrite Hu. by rewrite andb_false_r.
  - intros ->. unfold validateDHCP. rewrite Hu. by rewrite andb_false_r.
  - intros Hn. unfold validateDHCP. rewrite Hu.
    assert ((fwt =? 0) = false) as -> by (apply Z.eqb_neq; intros ->; apply Hn; by left).
    rewrite andb_false_r. by rewrite (archSwitch_other _ _ Hn).
  - intros mach fwtype E.
    destruct (validateDHCP_inv _ _ _ _ E) as (fwt' & fw & Hu' & Ht & _ & _ & _ & Hf).
    rewrite Hu in Hu'. injection Hu' as <-. by exists fw.
  - intros arch fw Ht Hg. rewrite (validateDHCP_classified s pkt fwt arch fw Hu Hg Ht).
    split.
    + intros Hok%guidCheck_spec. by rewrite Hok.
    + intros Hok%guidCheck_spec e He. rewrite Hok. unfold userClassRefine. by rewrite He.
Qed.

Lemma validateDHCP_arch_table_witness :
  (validateDHCP Sample.server (Sample.discover Sample.mac2 [(93, [x00; x07])])).2
  = inr ({| Machine_MAC := Sample.mac2; Machine_Arch := 1 |}, 2).
Proof.
  destruct (validateDHCP_arch_table Sample.server
              (Sample.discover Sample.mac2 [(93, [x00; x07])]) 7 eq_refl)
    as (_ & _ & _ & _ & Hrow).
  destruct (Hrow 1 2) as (_ & Hplain).
  - unfold archTable. apply list_elem_of_further, list_elem_of_further, list_elem_of_here.
  - intros [=].
  - apply (Hplain I Sample.errOptionNotPresent eq_refl).
Defined.

(** C5: a packet whose hardware address, as text, starts with one of
    the five vendor prefixes and whose architecture code is 0 is
    refused with "unsupported client firmware type"; it is never given
    the BIOS-PXE classification of code 0. *)
Theorem validateDHCP_vendor_prefix `{Packages} (s : Server) (pkt : Packet) :
  Options_Uint16 (Packet_Options pkt) OptClientSystem = inr 0 ->
  vendorPrefixed pkt ->
  validateDHCP s pkt =
    ([Debug "DHCP" "We think we got an RPI client" []],
     inl (fmt_Errorf "unsupported client firmware type '%d'" [AInt 0]))
  /\ (forall mach fwtype, (validateDHCP s pkt).2 <> inr (mach, fwtype)).
Proof.
  intros Hu Hp%vendorPrefixed_spec.
  assert (validateDHCP s pkt =
    ([Debug "DHCP" "We think we got an RPI client" []],
     inl (fmt_Errorf "unsupported client firmware type '%d'" [AInt 0]))) as E.
  { unfold validateDHCP. rewrite Hu, Hp. reflexivity. }
  split; [exact E|]. intros mach fwtype. rewrite E. discriminate.
Qed.

Lemma validateDHCP_vendor_prefix_witness :
  (validateDHCP Sample.server (Sample.discover Sample.rpi [(93, [x00; x00])])).2
  = inl (fmt_Errorf "unsupported client firmware type '%d'" [AInt 0]).
Proof.
  destruct (validateDHCP_vendor_prefix Sample.server
              (Sample.discover Sample.rpi [(93, [x00; x00])]) eq_refl) as [E _].
  - exists "b8:27:eb:", "01:02:03". split; [|reflexivity].
    apply list_elem_of_further, list_elem_of_here.
  - rewrite E. reflexivity.
Defined.

(** C6: for a packet with a well-formed user-class option, every
    classification starts from the row of the architecture code and
    keeps its architecture; the value "iPXE" turns the firmware type
    BIOS-PXE into x86-iPXE and leaves every other type as it is, the
    value "pixiecore" gives the Pixiecore second stage whatever the
    type was, and any other value changes nothing.  Such a packet is
    classified whenever its code is in the table and its GUID passes
    (for code 0, when the address has no vendor prefix). *)
Theorem validateDHCP_user_class `{Packages} (s : Server) (pkt : Packet) (userClass : string) :
  Options_String (Packet_Options pkt) 77 = inr userClass ->
  let refined (fw fwtype : Firmware) :=
    (userClass = "iPXE" -> fw = FirmwareX86PC -> fwtype = FirmwareX86Ipxe)
    /\ (userClass = "iPXE" -> fw <> FirmwareX86PC -> fwtype = fw)
    /\ (userClass = "pixiecore" -> fwtype = FirmwarePixiecoreIpxe)
    /\ (userClass <> "iPXE" -> userClass <> "pixiecore" -> fwtype = fw) in
  (forall mach fwtype,
     (validateDHCP s pkt).2 = inr (mach, fwtype) ->
     exists fwt fw,
       Options_Uint16 (Packet_Options pkt) OptClientSystem = inr fwt
       /\ (fwt, (Machine_Arch mach, fw)) ∈ archTable
       /\ refined fw fwtype)
  /\ (forall fwt arch fw,
        Options_Uint16 (Packet_Options pkt) OptClientSystem = inr fwt ->
        (fwt, (arch, fw)) ∈ archTable ->
        (fwt = 0 -> ~ vendorPrefixed pkt) ->
        guidAccepted pkt ->
        exists fwtype,
          (validateDHCP s pkt).2 =
            inr ({| Machine_MAC := Packet_HardwareAddr pkt; Machine_Arch := arch |}, fwtype)
          /\ refined fw fwtype).
Proof.
  intros Hs refined.
  assert (forall fw, refined fw (userClassRefine pkt fw)) as Href.
  { intros fw. unfold refined, userClassRefine. rewrite Hs.
    split; [|split; [|split]].
    - intros -> ->. by rewrite Z.eqb_refl.
    - intros -> Hne. apply Z.eqb_neq in Hne. by rewrite Hne.
    - intros ->. done.
    - intros H1%String.eqb_neq H2%String.eqb_neq. by rewrite H1, H2. }
  split.
  - intros mach fwtype E.
    destruct (validateDHCP_inv _ _ _ _ E) as (fwt & fw & Hu & Ht & _ & _ & _ & ->).
    exists fwt, fw. done.
  - intros fwt arch fw Hu Ht Hg Hok%guidCheck_spec.
    exists (userClassRefine pkt fw).
    rewrite (validateDHCP_classified s pkt fwt arch fw Hu Hg Ht), Hok. done.
Qed.

Lemma validateDHCP_user_class_witness :
  (validateDHCP Sample.server
     (Sample.discover Sample.mac2
        [(93, [x00; x00]); (77, list_byte_of_string "iPXE")])).2
  = inr ({| Machine_MAC := Sample.mac2; Machine_Arch := 0 |}, 4)
  /\ (validateDHCP Sample.server
        (Sample.discover Sample.mac2
           [(93, [x00; x07]); (77, list_byte_of_string "pixiecore")])).2
     = inr ({| Machine_MAC := Sample.mac2; Machine_Arch := 1 |}, 5).
Proof.
  split.
  - destruct (validateDHCP_user_class Sample.server
                (Sample.discover Sample.mac2
                   [(93, [x00; x00]); (77, list_byte_of_string "iPXE")])
                "iPXE" eq_refl) as [_ Hex].
    destruct (Hex 0 0 0) as (fwtype & E & Hipxe & _).
    + reflexivity.
    + unfold archTable. apply list_elem_of_here.
    + intros _ Hp%vendorPrefixed_spec. vm_compute in Hp. discriminate.
    + exact I.
    + rewrite E, (Hipxe eq_refl eq_refl). reflexivity.
  - destruct (validateDHCP_user_class Sample.server
                (Sample.discover Sample.mac2
                   [(93, [x00; x07]); (77, list_byte_of_string "pixiecore")])
                "pixiecore" eq_refl) as [_ Hex].
    destruct (Hex 7 1 2) as (fwtype & E & _ & _ & Hpixie & _).
    + reflexivity.
    + unfold archTable. apply list_elem_of_further, list_elem_of_further, list_elem_of_here.
    + intros [=].
    + exact I.
    + rewrite E, (Hpixie eq_refl). reflexivity.
Defined.

(** C7: a packet without GUID option (or with an empty one), and a
    packet with a 17-byte GUID whose first byte is zero, pass the GUID
    validation: they are classified whenever their code is in the
    table (for code 0, when the address has no vendor prefix).  A
    17-byte GUID with another first byte, and a GUID of any other
    length, are never classified, and where classification reaches the
    GUID they are refused with the malformed-GUID errors. *)
Theorem validateDHCP_guid `{Packages} (s : Server) (pkt : Packet) :
  let guid := default [] (Packet_Options pkt !! OptUidGuidClientIdentifier) in
  let malformed :=
    (length guid = 17%nat /\ guid !! 0%nat <> Some x00)
    \/ (length guid <> 0%nat /\ length guid <> 17%nat) in
  (malformed -> forall mach fwtype, (validateDHCP s pkt).2 <> inr (mach, fwtype))
  /\ (forall fwt arch fw,
        Options_Uint16 (Packet_Options pkt) OptClientSystem = inr fwt ->
        (fwt, (arch, fw)) ∈ archTable ->
        (fwt = 0 -> ~ vendorPrefixed pkt) ->
        let accepted :=
          (validateDHCP s pkt).2 =
            inr ({| Machine_MAC := Packet_HardwareAddr pkt; Machine_Arch := arch |},
                 userClassRefine pkt fw) in
        (length guid = 0%nat -> accepted)
        /\ (length guid = 17%nat -> guid !! 0%nat = Some x00 -> accepted)
        /\ (length guid = 17%nat -> guid !! 0%nat <> Some x00 ->
              (validateDHCP s pkt).2 = inl (errors_New
                "malformed client GUID (option 97), leading byte must be zero"))
        /\ (length guid <> 0%nat -> length guid <> 17%nat ->
              (validateDHCP s pkt).2 = inl (errors_New
                "malformed client GUID (option 97), wrong size"))).
Proof.
  intros guid malformed. split.
  - intros Hm mach fwtype E.
    destruct (validateDHCP_inv _ _ _ _ E) as (_ & _ & _ & _ & _ & Hok & _).
    unfold guidAccepted in Hok. subst malformed guid.
    destruct (Packet_Options pkt !! OptUidGuidClientIdentifier) as [g|]; simpl in Hm.
    + destruct Hok as [->|[Hl Hz]]; destruct Hm as [[? ?]|[? ?]]; done.
    + destruct Hm as [[? ?]|[? ?]]; done.
  - intros fwt arch fw Hu Ht Hg accepted. subst accepted.
    rewrite (validateDHCP_classified s pkt fwt arch fw Hu Hg Ht).
    unfold guidCheck. fold guid. clearbody guid. clear malformed.
    split; [|split; [|split]].
    + intros ->. done.
    + intros Hl Hz. rewrite Hl. destruct guid as [|b guid]; [done|].
      injection Hz as ->. done.
    + intros Hl Hz. rewrite Hl. destruct guid as [|b guid]; [done|].
      change (byteAt (b :: guid) 0) with (Byte.to_N b).
      change ((b :: guid) !! 0%nat) with (Some b) in Hz.
      destruct (N.eqb_spec (Byte.to_N b) 0) as [Hb|Hb]; [|done].
      destruct Hz. rewrite <- (Byte.of_to_N b), Hb. done.
    + intros H0 H17. apply Nat.eqb_neq in H0, H17. by rewrite H0, H17.
Qed.

Lemma validateDHCP_guid_witness :
  (validateDHCP Sample.server
     (Sample.discover Sample.mac2 [(93, [x00; x07]); (97, Sample.guid0)])).2
  = inr ({| Machine_MAC := Sample.mac2; Machine_Arch := 1 |}, 2)
  /\ (validateDHCP Sample.server
        (Sample.discover Sample.mac2 [(93, [x00; x07]); (97, Sample.guid1)])).2
     = inl (errors_New "malformed client GUID (option 97), leading byte must be zero")
  /\ (validateDHCP Sample.server
        (Sample.discover Sample.mac2 [(93, [x00; x07]); (97, [x00; x01])])).2
     = inl (errors_New "malformed client GUID (option 97), wrong size").
Proof.
  assert ((7, (1, 2)) ∈ @archTable Sample.packages) as Hrow.
  { unfold archTable. apply list_elem_of_further, list_elem_of_further, list_elem_of_here. }
  split; [|split].
  - destruct (validateDHCP_guid Sample.server
                (Sample.discover Sample.mac2 [(93, [x00; x07]); (97, Sample.guid0)]))
      as [_ Hrows].
    destruct (Hrows 7 1 2 eq_refl Hrow) as (_ & Hok & _); [intros [=]|].
    rewrite (Hok eq_refl eq_refl). reflexivity.
  - destruct (validateDHCP_guid Sample.server
                (Sample.discover Sample.mac2 [(93, [x00; x07]); (97, Sample.guid1)]))
      as [_ Hrows].
    destruct (Hrows 7 1 2 eq_refl Hrow) as (_ & _ & Hbad & _); [intros [=]|].
    apply Hbad; [reflexivity|]. intros [=].
  - destruct (validateDHCP_guid Sample.server
                (Sample.discover Sample.mac2 [(93, [x00; x07]); (97, [x00; x01])]))
      as [_ Hrows].
    destruct (Hrows 7 1 2 eq_refl Hrow) as (_ & _ & _ & Hbad); [intros [=]|].
    apply Hbad; intros [=].
Defined.

(** ** Offer construction (offerDHCP) *)

Section Offer.
Context `{Packages}.

Lemma firmware_distinct :
  NoDup firmwareConstants ->
  FirmwareX86PC <> FirmwareX86Ipxe /\ FirmwareX86PC <> FirmwareEFI32
  /\ FirmwareX86PC <> FirmwareEFI64 /\ FirmwareX86PC <> FirmwareEFIBC
  /\ FirmwareX86PC <> FirmwareEfiArm64 /\ FirmwareX86PC <> FirmwarePixiecoreIpxe
  /\ FirmwareX86Ipxe <> FirmwareEFI32 /\ FirmwareX86Ipxe <> FirmwareEFI64
  /\ FirmwareX86Ipxe <> FirmwareEFIBC /\ FirmwareX86Ipxe <> FirmwareEfiArm64
  /\ FirmwareX86Ipxe <> FirmwarePixiecoreIpxe
  /\ FirmwareEFI32 <> FirmwarePixiecoreIpxe /\ FirmwareEFI64 <> FirmwarePixiecoreIpxe
  /\ FirmwareEFIBC <> FirmwarePixiecoreIpxe /\ FirmwareEfiArm64 <> FirmwarePixiecoreIpxe.
Proof.
  unfold firmwareConstants. rewrite !NoDup_cons, !not_elem_of_cons.
  intros ((?&?&?&?&?&?&_) & (?&?&?&?&?&_) & (?&?&?&?&_) & (?&?&?&_) & (?&?&_) & (?&_) & _).
  repeat split; congruence.
Qed.

End Offer.

Ltac option_codes :=
  unfold OptServerIdentifier, OptVendorIdentifier, OptUidGuidClientIdentifier,
    OptVendorSpecific in *.

Ltac firmware_case Hd :=
  destruct (firmware_distinct Hd) as (?&?&?&?&?&?&?&?&?&?&?&?&?&?&?);
  repeat match goal with
         | |- context [?a =? ?b] =>
             first [ rewrite (Z.eqb_refl a)
                   | replace (a =? b) with false by (symmetry; apply Z.eqb_neq; congruence) ]
         end;
  simpl.

(** C3: every offer that is constructed has the common fields, and its
    boot server name, boot filename and vendor-specific option follow
    the firmware type: BIOS-PXE and the EFI types name the server and
    the file [<hw-addr>/<type-code>], x86-iPXE gets the tftp URL and
    Pixiecore the HTTP URL with no server name, and only the two x86
    types carry the vendor-specific option.  An offer is constructed
    for each of the seven firmware types (for the two x86 types, when
    their vendor options serialize), and for no other. *)
Theorem offerDHCP_offer `{Packages} (s : Server) (pkt : Packet) (mach : Machine)
    (serverIP : IP) (fwtype : Firmware) :
  NoDup firmwareConstants ->
  let hw := HardwareAddr_String (Machine_MAC mach) in
  let offer := offerDHCP s pkt mach serverIP fwtype in
  (forall resp, offer = inr resp -> offerCommon pkt mach serverIP resp)
  /\ (fwtype = FirmwareX86PC ->
        match Options_Marshal pxeBypass with
        | inl err =>
            offer = inl (fmt_Errorf "failed to serialize PXE vendor options: %s" [AErr err])
        | inr bs =>
            exists resp, offer = inr resp
              /\ Packet_BootServerName resp = IP_String serverIP
              /\ Packet_BootFilename resp = hw +:+ "/" +:+ fmt_d fwtype
              /\ Packet_Options resp !! OptVendorSpecific = Some bs
        end)
  /\ (fwtype = FirmwareX86Ipxe ->
        match Options_Marshal pxeBypass with
        | inl err =>
            offer = inl (fmt_Errorf "failed to serialize PXE vendor options: %s" [AErr err])
        | inr bs =>
            exists resp, offer = inr resp
              /\ Packet_BootServerName resp = ""
              /\ Packet_BootFilename resp
                 = "tftp://" +:+ IP_String serverIP +:+ "/" +:+ hw +:+ "/" +:+ fmt_d fwtype
              /\ Packet_Options resp !! OptVendorSpecific = Some bs
        end)
  /\ (fwtype ∈ [FirmwareEFI32; FirmwareEFI64; FirmwareEFIBC; FirmwareEfiArm64] ->
        exists resp, offer = inr resp
          /\ Packet_BootServerName resp = IP_String serverIP
          /\ Packet_BootFilename resp = hw +:+ "/" +:+ fmt_d fwtype
          /\ Packet_Options resp !! OptVendorSpecific = None)
  /\ (fwtype = FirmwarePixiecoreIpxe ->
        exists resp, offer = inr resp
          /\ Packet_BootServerName resp = ""
          /\ Packet_BootFilename resp
             = "http://" +:+ IP_String serverIP +:+ ":" +:+ fmt_d (Server_HTTPPort s)
               +:+ "/_/ipxe?arch=" +:+ fmt_d (Machine_Arch mach) +:+ "&mac=" +:+ hw
          /\ Packet_Options resp !! OptVendorSpecific = None)
  /\ (fwtype ∉ firmwareConstants ->
        offer = inl (fmt_Errorf "unknown firmware type %d" [AInt fwtype])).
Proof.
  intros Hd hw offer. subst hw offer.
  split; [|split; [|split; [|split; [|split]]]].
  - intros resp E. unfold offerDHCP in E. unfold offerCommon. option_codes.
    destruct (Packet_Options pkt !! 97) as [guid|] eqn:Eg;
      repeat (case_match; simplify_eq); simpl; repeat split; by simplify_map_eq.
  - intros ->. unfold offerDHCP. option_codes.
    destruct (Packet_Options pkt !! 97); firmware_case Hd;
      (destruct (Options_Marshal pxeBypass) as [err|bs]; [done|]);
      (eexists; split; [done|]); simpl; repeat split; by simplify_map_eq.
  - intros ->. unfold offerDHCP. option_codes.
    destruct (Packet_Options pkt !! 97); firmware_case Hd;
      (destruct (Options_Marshal pxeBypass) as [err|bs]; [done|]);
      (eexists; split; [done|]); simpl; repeat split; by simplify_map_eq.
  - rewrite !elem_of_cons, elem_of_nil. intros [->|[->|[->|[->|[]]]]];
      unfold offerDHCP; option_codes;
      destruct (Packet_Options pkt !! 97); firmware_case Hd; rewrite ?orb_true_r;
      (eexists; split; [done|]); simpl; repeat split; by simplify_map_eq.
  - intros ->. unfold offerDHCP. option_codes.
    destruct (Packet_Options pkt !! 97); firmware_case Hd;
      (eexists; split; [done|]); simpl; repeat split; by simplify_map_eq.
  - unfold firmwareConstants. rewrite !not_elem_of_cons. intros (?&?&?&?&?&?&?&_).
    unfold offerDHCP.
    repeat match goal with
           | |- context [fwtype =? ?b] =>
               replace (fwtype =? b) with false by (symmetry; apply Z.eqb_neq; congruence)
           end.
    done.
Qed.

Lemma sample_firmware_distinct : NoDup (@firmwareConstants Sample.packages).
Proof. apply (bool_decide_unpack _). vm_compute. reflexivity. Defined.

Lemma offerDHCP_offer_witness :
  exists resp,
    offerDHCP Sample.server (Sample.discover Sample.mac2 [(93, [x00; x00])])
      {| Machine_MAC := Sample.mac2; Machine_Arch := 0 |} [x0a; x00; x00; x01] 0
    = inr resp
    /\ Packet_BootServerName resp = "10.0.0.1"
    /\ Packet_BootFilename resp = "de:ad:be:ef:00:01/0"
    /\ Packet_Options resp !! OptVendorSpecific = Some [x06; x01; x08; xff].
Proof.
  destruct (offerDHCP_offer Sample.server (Sample.discover Sample.mac2 [(93, [x00; x00])])
              {| Machine_MAC := Sample.mac2; Machine_Arch := 0 |} [x0a; x00; x00; x01] 0
              sample_firmware_distinct) as (_ & Hpc & _).
  specialize (Hpc eq_refl).
  change (Options_Marshal pxeBypass) with (@inr error _ [x06; x01; x08; xff]) in Hpc.
  exact Hpc.
Defined.

(** ** Socket transport (dhcp4/conn.go) *)

(** C9: a packet that encodes is written once, to a destination fixed
    by its transmission strategy: the broadcast strategies (broadcast,
    and hardware-address unicast, which this transport broadcasts) go
    to the all-ones address, port 68, on the arrival interface; the
    relay strategy goes to the packet's relay address, port 67; the
    client-address strategy goes to the packet's client address, port
    68.  A packet that does not encode, or has no known strategy, is
    not written at all. *)
Theorem SendDHCP_destination `{Packages} (c : PacketConn) (pkt : Packet) (intf : Interface) :
  let t := Packet_txType pkt in
  let sentTo (cm : option ControlMessage) (dst : UDPAddr) :=
    exists b d,
      Packet_Marshal pkt = inr b
      /\ d = {| Datagram_bytes := b; Datagram_cm := cm; Datagram_dst := dst |}
      /\ (portableConn_SendDHCP c pkt intf).2 = PacketConn_writeResult c d
      /\ PacketConn_writes (portableConn_SendDHCP c pkt intf).1
         = PacketConn_writes c ++ [(d, PacketConn_writeResult c d)] in
  IP_To4 IPv4bcast = Some [xff; xff; xff; xff]
  /\ match Packet_Marshal pkt with
     | inl err => portableConn_SendDHCP c pkt intf = (c, Some err)
     | inr b =>
         (t = txBroadcast \/ t = txHardwareAddr ->
            sentTo (Some {| ControlMessage_IfIndex := Interface_Index intf |})
              {| UDPAddr_IP := IPv4bcast; UDPAddr_Port := 68 |})
         /\ (t = txRelayAddr ->
               sentTo None {| UDPAddr_IP := Packet_RelayAddr pkt; UDPAddr_Port := 67 |})
         /\ (t = txClientAddr ->
               sentTo None {| UDPAddr_IP := Packet_ClientAddr pkt; UDPAddr_Port := 68 |})
         /\ (t ∉ [txBroadcast; txRelayAddr; txClientAddr; txHardwareAddr] ->
               portableConn_SendDHCP c pkt intf
               = (c, Some (errors_New "unknown TX type for packet")))
     end.
Proof.
  intros t sentTo. split; [reflexivity|]. subst sentTo.
  unfold portableConn_SendDHCP. fold t.
  destruct (Packet_Marshal pkt) as [err|b]; [done|].
  split; [|split; [|split]].
  - intros Ht.
    assert ((t =? txBroadcast) || (t =? txHardwareAddr) = true) as ->
      by (destruct Ht as [->| ->]; reflexivity).
    by eexists _, _.
  - intros ->. by eexists _, _.
  - intros ->. by eexists _, _.
  - rewrite !not_elem_of_cons. intros (?&?&?&?&_).
    repeat match goal with
           | |- context [t =? ?b] =>
               replace (t =? b) with false by (symmetry; apply Z.eqb_neq; congruence)
           end.
    done.
Qed.

Lemma SendDHCP_destination_witness :
  exists d,
    PacketConn_writes
      (@portableConn_SendDHCP Sample.packages Sample.socket Sample.offer Sample.eth0).1
    = [(d, None)]
    /\ Datagram_dst d = {| UDPAddr_IP := IPv4bcast; UDPAddr_Port := 68 |}
    /\ Datagram_cm d = Some {| ControlMessage_IfIndex := 2 |}.
Proof.
  destruct (@SendDHCP_destination Sample.packages Sample.socket Sample.offer Sample.eth0)
    as [_ Hsend].
  change (@Packet_Marshal Sample.packages Sample.offer)
    with (@inr error _ [x36; x04; x0a; x00; x00; x01; xff]) in Hsend.
  destruct Hsend as [Hb _]. destruct (Hb (or_introl eq_refl)) as (b & d & Eb & -> & _ & Ew).
  injection Eb as <-. eexists. split; [exact Ew|]. split; reflexivity.
Defined.


(** ** The negotiation loop (serveDHCP) *)

Section Loop.
Context `{Packages} {C : Type} `{Conn C}.

(** A pass returns exactly when its receive is fatal, and then
    nothing else has happened. *)
Lemma body_outcome s conn :
  match fatal (RecvDHCP conn).2 with
  | Some e => serveDHCP_body s conn = ((RecvDHCP conn).1, [], Return e)
  | None => (serveDHCP_body s conn).2 = Continue
  end.
Proof.
  unfold serveDHCP_body.
  destruct (RecvDHCP conn) as [conn1 [err|[pkt [intf|]]]]; simpl; [done| |done].
  destruct (isBootDHCP pkt); [done|].
  destruct (validateDHCP s pkt) as [dbg [err|[mach fwtype]]]; [done|].
  destruct (Server_Booter s mach) as [err|[spec|]]; [done| |done].
  destruct (interfaceIP intf) as [err|serverIP]; [done|].
  destruct (offerDHCP s pkt mach serverIP fwtype) as [err|resp]; [done|].
  destruct (SendDHCP conn1 resp intf) as [conn2 [err|]]; done.
Qed.

(** A fault before the send: the line is logged, the connection is
    the one the receive left, and the pass continues. *)
Lemma body_fault s conn conn1 pkt intf entry :
  RecvDHCP conn = (conn1, inr (pkt, Some intf)) ->
  PacketFault s pkt intf entry ->
  exists l, serveDHCP_body s conn = (conn1, l ++ [entry], Continue).
Proof.
  intros Hr Hf. unfold serveDHCP_body. rewrite Hr.
  destruct Hf as [err Hb|err Hb Hv|mach fwtype err Hb Hv Hp|mach fwtype Hb Hv Hp
                 |mach fwtype spec err Hb Hv Hp Hi|mach fwtype spec serverIP err Hb Hv Hp Hi Ho];
    rewrite Hb; [by exists []|..];
    destruct (validateDHCP s pkt) as [dbg v]; simpl in Hv; subst v; [by eexists|..];
    rewrite Hp; [by eexists| |rewrite Hi..].
  - match goal with
    | |- exists l, (_, ?A ++ [?x; ?y], _) = _ => exists (A ++ [x])
    end.
    rewrite <- (app_assoc _ [_] [_]). reflexivity.
  - by eexists.
  - rewrite Ho. by eexists.
Qed.

(** An offer is handed to [SendDHCP] on the connection the receive
    left; when the send fails, that is logged; either way the pass
    continues. *)
Lemma body_send s conn conn1 pkt intf resp :
  RecvDHCP conn = (conn1, inr (pkt, Some intf)) ->
  offered s pkt intf resp ->
  exists l,
    serveDHCP_body s conn =
      match SendDHCP conn1 resp intf with
      | (conn2, Some err) =>
          (conn2,
           l ++ [Log "DHCP" "Failed to send ProxyDHCP offer for %s: %s"
                   [AHw (Packet_HardwareAddr pkt); AErr err]],
           Continue)
      | (conn2, None) => (conn2, l, Continue)
      end.
Proof.
  intros Hr (mach & fwtype & spec & serverIP & Hb & Hv & Hp & Hi & Ho).
  unfold serveDHCP_body. rewrite Hr, Hb.
  destruct (validateDHCP s pkt) as [dbg v]; simpl in Hv; subst v.
  rewrite Hp, Hi, Ho. eexists.
  destruct (SendDHCP conn1 resp intf) as [conn2 [err|]]; reflexivity.
Qed.

(** Every packet that arrives with its interface either meets a
    fault or gets an offer. *)
Lemma fault_or_offer s pkt intf :
  (exists entry, PacketFault s pkt intf entry) \/ (exists resp, offered s pkt intf resp).
Proof.
  destruct (isBootDHCP pkt) as [err|] eqn:Hb; [left; eexists; by eapply FaultNotPXE|].
  destruct (validateDHCP s pkt).2 as [err|[mach fwtype]] eqn:Hv;
    [left; eexists; by eapply FaultValidation|].
  destruct (Server_Booter s mach) as [err|[spec|]] eqn:Hp;
    [left; eexists; by eapply FaultProvider| |left; eexists; by eapply FaultNoSpec].
  destruct (interfaceIP intf) as [err|serverIP] eqn:Hi;
    [left; eexists; by eapply FaultInterface|].
  destruct (offerDHCP s pkt mach serverIP fwtype) as [err|resp] eqn:Ho;
    [left; eexists; by eapply FaultOffer|].
  right. exists resp, mach, fwtype, spec, serverIP. done.
Qed.

Lemma loop_step fuel s conn :
  serveDHCP_loop (S fuel) s conn =
    match serveDHCP_body s conn with
    | (conn1, l, Return err) => (conn1, l, Some err)
    | (conn1, l, Continue) =>
        let '(conn2, l', r) := serveDHCP_loop fuel s conn1 in (conn2, l ++ l', r)
    end.
Proof. reflexivity. Qed.

(** The loop returns [e] within [fuel] passes exactly when some pass
    [n < fuel] has a fatal receive with [e], and no pass before it. *)
Lemma loop_returns fuel s conn e :
  (serveDHCP_loop fuel s conn).2 = Some e
  <-> exists n, (n < fuel)%nat
        /\ (forall k, (k < n)%nat -> fatal (RecvDHCP (afterPasses k s conn)).2 = None)
        /\ fatal (RecvDHCP (afterPasses n s conn)).2 = Some e.
Proof.
  revert conn. induction fuel as [|fuel IH]; intros conn.
  - simpl. split; [done|]. intros (n & ? & _). lia.
  - rewrite loop_step. pose proof (body_outcome s conn) as Hb.
    destruct (fatal (RecvDHCP conn).2) as [e'|] eqn:Hf.
    + rewrite Hb. simpl. split.
      * intros [= ->]. exists 0%nat. split; [lia|]. split; [intros; lia|done].
      * intros (n & _ & Hk & Hn). destruct n as [|n]; [simpl in Hn; congruence|].
        specialize (Hk 0%nat ltac:(lia)). simpl in Hk. congruence.
    + destruct (serveDHCP_body s conn) as [[conn1 l] out] eqn:Eb. simpl in Hb. subst out.
      destruct (serveDHCP_loop fuel s conn1) as [[conn2 l'] r] eqn:El. simpl.
      specialize (IH conn1). rewrite El in IH. simpl in IH. rewrite IH. split.
      * intros (n & Hlt & Hk & Hn). exists (S n). split; [lia|]. simpl. rewrite Eb. simpl.
        split; [|done]. intros [|k] Hk'; [done|]. simpl. rewrite Eb. apply Hk. lia.
      * intros (n & Hlt & Hk & Hn). destruct n as [|n]; [simpl in Hn; congruence|].
        simpl in Hn. rewrite Eb in Hn. exists n. split; [lia|]. split; [|done].
        intros k Hk'. specialize (Hk (S k) ltac:(lia)). simpl in Hk. by rewrite Eb in Hk.
Qed.

End Loop.

(** C1, as the code has it: the loop returns exactly from a pass whose
    receive failed or delivered a packet without interface
    information, with the error of that pass.  A pass that received a
    packet with its interface always continues: the packet meets one
    of the faults (no PXE request, validation error, provider error or
    nil result, no address on the interface, offer not constructed),
    and then the fault's line is the last one logged and the
    connection is as the receive left it, so nothing was sent; or it
    gets an offer, which is handed to [SendDHCP], and a failed send is
    logged. *)
Theorem serveDHCP_fault_containment `{Packages} {C : Type} `{Conn C}
    (s : Server) (conn : C) :
  (forall fuel e,
     (serveDHCP fuel s conn).2 = Some e
     <-> exists n, (n < fuel)%nat
           /\ (forall k, (k < n)%nat -> fatal (RecvDHCP (afterPasses k s conn)).2 = None)
           /\ fatal (RecvDHCP (afterPasses n s conn)).2 = Some e)
  /\ (forall e,
        fatal (RecvDHCP conn).2 = Some e ->
        serveDHCP_body s conn = ((RecvDHCP conn).1, [], Return e))
  /\ (forall conn1 pkt intf,
        RecvDHCP conn = (conn1, inr (pkt, Some intf)) ->
        (serveDHCP_body s conn).2 = Continue
        /\ ((exists entry, PacketFault s pkt intf entry)
            \/ (exists resp, offered s pkt intf resp))
        /\ (forall entry,
              PacketFault s pkt intf entry ->
              exists l, serveDHCP_body s conn = (conn1, l ++ [entry], Continue))
        /\ (forall resp,
              offered s pkt intf resp ->
              exists l,
                serveDHCP_body s conn =
                  match SendDHCP conn1 resp intf with
                  | (conn2, Some err) =>
                      (conn2,
                       l ++ [Log "DHCP" "Failed to send ProxyDHCP offer for %s: %s"
                               [AHw (Packet_HardwareAddr pkt); AErr err]],
                       Continue)
                  | (conn2, None) => (conn2, l, Continue)
                  end)).
Proof.
  split; [|split].
  - intros fuel e. rewrite <- loop_returns. unfold serveDHCP.
    by destruct (serveDHCP_loop fuel s conn) as [[? ?] ?].
  - intros e He. pose proof (body_outcome s conn) as Hb. by rewrite He in Hb.
  - intros conn1 pkt intf Hr. split; [|split; [|split]].
    + pose proof (body_outcome s conn) as Hb. by rewrite Hr in Hb.
    + apply fault_or_offer.
    + intros entry. by apply body_fault.
    + intros resp. by apply body_send.
Qed.

(** C1 as stated fails: a receive that succeeds but carries no
    interface information ends the loop as well. *)
Lemma serveDHCP_fault_containment_counterexample :
  (exists pkt, (RecvDHCP Sample.noInterface).2 = inr (pkt, None))
  /\ (serveDHCP 1 Sample.server Sample.noInterface).2 = Some noInterfaceError.
Proof. split; [eexists|]; vm_compute; reflexivity. Qed.

Lemma serveDHCP_fault_containment_witness :
  (serveDHCP 5 Sample.server Sample.script).2
  = Some (fmt_Errorf "receiving DHCP packet: %s"
            [AErr (errors_New "use of closed network connection")])
  /\ map (fun sent => Packet_BootFilename sent.1)
       (Script_sent (serveDHCP 5 Sample.server Sample.script).1.1)
     = ["de:ad:be:ef:00:01/2"].
Proof.
  split; [|vm_compute; reflexivity].
  apply (proj1 (serveDHCP_fault_containment Sample.server Sample.script)).
  exists 4%nat. split; [lia|]. split; [|vm_compute; reflexivity].
  intros [|[|[|[|k]]]] Hk; try (vm_compute; reflexivity). lia.
Defined.

(** * Further properties *)

(** ** Printing and parsing of hardware addresses and integers *)

Lemma HardwareAddr_String_cons b c a :
  HardwareAddr_String (b :: c :: a)
  = String (hexDigit (N.shiftr (Byte.to_N b) 4))
      (String (hexDigit (N.land (Byte.to_N b) 15))
         (String ":" (HardwareAddr_String (c :: a)))).
Proof. reflexivity. Qed.

Lemma HardwareAddr_String_one b :
  HardwareAddr_String [b]
  = String (hexDigit (N.shiftr (Byte.to_N b) 4))
      (String (hexDigit (N.land (Byte.to_N b) 15)) "").
Proof. reflexivity. Qed.

Lemma xtoi2_printed b rest :
  rest = "" \/ (exists r, rest = String ":" r) ->
  xtoi2 (String (hexDigit (N.shiftr (Byte.to_N b) 4))
           (String (hexDigit (N.land (Byte.to_N b) 15)) rest)) (Some ":"%char)
  = Some b.
Proof. intros [->|[r ->]]; destruct b; reflexivity. Qed.

Lemma macGroups2_printed a :
  macGroups2 (length a) ":" (HardwareAddr_String a) = Some a.
Proof.
  induction a as [|b [|c a] IH]; [done| |].
  - rewrite HardwareAddr_String_one. change (length [b]) with 1%nat.
    cbn [macGroups2]. rewrite xtoi2_printed by (by left). done.
  - rewrite HardwareAddr_String_cons.
    change (length (b :: c :: a)) with (S (length (c :: a))).
    cbn [macGroups2]. rewrite xtoi2_printed by (right; by eexists).
    cbn [dropString]. rewrite IH. done.
Qed.

Lemma HardwareAddr_String_length a :
  a <> [] -> Z.of_nat (String.length (HardwareAddr_String a)) = 3 * Z.of_nat (length a) - 1.
Proof.
  induction a as [|b [|c a] IH]; [done|done|]. intros _.
  rewrite HardwareAddr_String_cons. cbn [String.length length] in *.
  specialize (IH ltac:(done)). lia.
Qed.

(** [net.ParseMAC] reads back what [HardwareAddr.String] prints, for
    the three lengths it knows. *)
Lemma ParseMAC_printed a :
  length a = 6%nat \/ length a = 8%nat \/ length a = 20%nat ->
  net_ParseMAC (HardwareAddr_String a) = Some a.
Proof.
  intros Hl. pose proof (macGroups2_printed a) as Hg.
  assert (a <> []) as Hne by (intros ->; simpl in Hl; lia).
  pose proof (HardwareAddr_String_length a Hne) as Hlen.
  destruct a as [|b1 [|b2 [|b3 a]]]; [simpl in Hl; lia..|].
  unfold net_ParseMAC. rewrite Hlen.
  rewrite !HardwareAddr_String_cons in *. cbn [String.get]. 
  rewrite <- !HardwareAddr_String_cons.
  destruct Hl as [Hl|[Hl|Hl]]; rewrite Hl in *; simpl; exact Hg.
Qed.

Lemma decDigit_pretty_char d :
  (d < 10)%N -> decDigit (pretty_N_char d) = Some (Z.of_N d).
Proof.
  intros Hd. destruct d as [|p]; [done|].
  do 4 (destruct p as [p|p|]; try done; try lia).
Qed.

Lemma noSlash_pretty_char d : Ascii.eqb (pretty_N_char d) "/" = false.
Proof. unfold pretty_N_char. by repeat case_match. Qed.

(** The digits of [x] in front of [s] are read as [x] written after
    what has been read before. *)
Lemma decDigits_pretty_go x :
  exists k : nat, forall s acc,
    decDigits acc (pretty_N_go x s) = decDigits (acc * 10 ^ Z.of_nat k + Z.of_N x) s.
Proof.
  induction (N.lt_wf_0 x) as [x _ IH].
  destruct (decide (x = 0)%N) as [->|Hx].
  - exists 0%nat. intros s acc. rewrite pretty_N_go_0. f_equal. simpl. lia.
  - destruct (IH (x `div` 10)%N) as [k Hk]; [apply N.div_lt; lia|].
    exists (S k). intros s acc. rewrite pretty_N_go_step by lia. rewrite Hk.
    cbn [decDigits]. rewrite decDigit_pretty_char by (apply N.mod_lt; lia).
    f_equal. rewrite Nat2Z.inj_succ, Z.pow_succ_r by lia.
    rewrite (N.div_mod x 10) at 3 by lia. rewrite N2Z.inj_add, N2Z.inj_mul. simpl Z.of_N. lia.
Qed.

Lemma noSlash_pretty_go x s : noSlash (pretty_N_go x s) = noSlash s.
Proof.
  revert s. induction (N.lt_wf_0 x) as [x _ IH]. intros s.
  destruct (decide (x = 0)%N) as [->|Hx]; [by rewrite pretty_N_go_0|].
  rewrite pretty_N_go_step by lia. rewrite IH by (apply N.div_lt; lia).
  simpl. by rewrite noSlash_pretty_char.
Qed.

Lemma decDigits_pretty_pos p : decDigits 0 (pretty (N.pos p)) = Some (Z.pos p).
Proof.
  unfold pretty, pretty_N. rewrite decide_False by done.
  destruct (decDigits_pretty_go (N.pos p)) as [k Hk]. rewrite Hk. simpl. done.
Qed.

Lemma noSlash_fmt_d n : noSlash (fmt_d n) = true.
Proof.
  unfold fmt_d, pretty, pretty_Z. destruct n as [|p|p]; [done| |].
  - unfold pretty, pretty_positive, pretty, pretty_N. rewrite decide_False by done.
    by rewrite noSlash_pretty_go.
  - unfold pretty, pretty_positive, pretty, pretty_N. rewrite decide_False by done.
    change ("-" +:+ ?s) with (String "-" s). simpl. by rewrite noSlash_pretty_go.
Qed.

(** A string that reads as digits and is not empty starts with a
    digit, so [strconv.Atoi] takes it without a sign. *)
Lemma atoi_digits s n :
  s <> "" -> decDigits 0 s = Some n -> n <= maxInt -> strconv_Atoi s = Some n.
Proof.
  intros Hs Hd Hn. pose proof (decDigits_ge _ _ _ (Z.le_refl 0) Hd) as Hge.
  destruct s as [|c s]; [done|].
  assert (is_Some (decDigit c)) as Hc.
  { simpl in Hd. destruct (decDigit c); [by eexists|done]. }
  destruct (decDigit_not_sign _ Hc) as [Hm Hp].
  unfold strconv_Atoi. rewrite Hm, Hp. simpl orb. cbv iota. rewrite Hd.
  assert ((minInt <=? n) && (n <=? maxInt) = true) as ->; [|done].
  apply andb_true_intro. unfold minInt, maxInt in *. split; apply Z.leb_le; lia.
Qed.

Lemma pretty_pos_nonempty p : pretty (N.pos p) <> "".
Proof.
  intros E. pose proof (decDigits_pretty_pos p) as Hd. rewrite E in Hd. simpl in Hd. done.
Qed.

(** [strconv.Atoi] reads back what [%d] prints, for every [int]. *)
Lemma atoi_fmt_d n : minInt <= n <= maxInt -> strconv_Atoi (fmt_d n) = Some n.
Proof.
  intros [Hlo Hhi]. unfold fmt_d, pretty, pretty_Z. destruct n as [|p|p]; [done| |].
  - apply atoi_digits; [apply pretty_pos_nonempty|apply decDigits_pretty_pos|done].
  - change ("-" +:+ ?s) with (String "-" s). unfold strconv_Atoi.
    change (Ascii.eqb "-" "-") with true. simpl orb. cbv iota.
    unfold pretty, pretty_positive.
    pose proof (pretty_pos_nonempty p) as Hne. pose proof (decDigits_pretty_pos p) as Hd.
    destruct (pretty (N.pos p)) as [|c s]; [done|]. rewrite Hd.
    assert ((minInt <=? - Z.pos p) && (- Z.pos p <=? maxInt) = true) as ->; [|done].
    apply andb_true_intro. unfold minInt, maxInt in *. split; apply Z.leb_le; lia.
Qed.

Lemma noSlash_HardwareAddr_String a : noSlash (HardwareAddr_String a) = true.
Proof.
  induction a as [|b [|c a] IH]; [done| |].
  - rewrite HardwareAddr_String_one. by destruct b.
  - rewrite HardwareAddr_String_cons. cbn [noSlash]. rewrite IH. by destruct b.
Qed.

(** ** File-transfer paths *)

Lemma macGroups2_length n sep s a : macGroups2 n sep s = Some a -> length a = n.
Proof.
  revert s a. induction n as [|n IH]; intros s a Hg; simpl in Hg; simplify_option_eq; [done|].
  simpl. f_equal. eauto.
Qed.

Lemma macGroups4_length n sep s a :
  macGroups4 n sep s = Some a -> length a = (2 * n)%nat.
Proof.
  revert s a. induction n as [|n IH]; intros s a Hg; simpl in Hg; simplify_option_eq; [done|].
  simpl. erewrite IH by done. lia.
Qed.

Lemma ParseMAC_length s a : net_ParseMAC s = Some a -> macLength a.
Proof.
  unfold net_ParseMAC, macLength, macLen.
  destruct (_ <? 14); [done|].
  destruct (String.get 2 s) as [s2|]; [|done].
  destruct (String.get 4 s) as [s4|]; [|done].
  destruct (_ || _).
  - destruct (negb _); [done|].
    destruct (_ || _) eqn:Hn; [|done]. intros Hg%macGroups2_length.
    rewrite !orb_true_iff, !Z.eqb_eq in Hn. lia.
  - destruct (Ascii.eqb s4 "."); [|done].
    destruct (negb _); [done|].
    destruct (_ || _) eqn:Hn; [|done]. intros Hg%macGroups4_length.
    rewrite !orb_true_iff, !Z.eqb_eq in Hn.
    destruct Hn as [[Hn|Hn]|Hn]; rewrite Hn in Hg; simpl in Hg; lia.
Qed.

Lemma Atoi_range s i : strconv_Atoi s = Some i -> minInt <= i <= maxInt.
Proof.
  unfold strconv_Atoi. intros E.
  repeat match type of E with
         | match ?x with _ => _ end = _ => destruct x eqn:?; try discriminate
         end.
  injection E as <-.
  match goal with
  | Hr : (_ && _) = true |- _ => apply andb_prop in Hr as [?%Z.leb_le ?%Z.leb_le]
  end.
  done.
Qed.

(** X1. The path parser reads back the canonical path of a hardware
    address and a firmware code: [<hw-addr>/<code>], the address
    printed by [HardwareAddr.String] and the code by [%d], for every
    address of 6, 8 or 20 bytes and every code that fits an [int]. *)
Theorem extractInfo_canonical (mac : HardwareAddr) (i : Z) :
  macLength mac ->
  minInt <= i <= maxInt ->
  extractInfo (HardwareAddr_String mac +:+ "/" +:+ fmt_d i) = inr (mac, i).
Proof.
  intros Hm Hi. apply extractInfo_ok.
  exists (HardwareAddr_String mac), (fmt_d i).
  split; [|split; [by apply ParseMAC_printed|by apply atoi_fmt_d]].
  apply split_two. split; [done|].
  split; [apply noSlash_HardwareAddr_String|apply noSlash_fmt_d].
Qed.

Lemma extractInfo_canonical_witness :
  extractInfo "de:ad:be:ef:00:01/-7" = inr (Sample.mac2, -7).
Proof.
  apply (extractInfo_canonical Sample.mac2 (-7)).
  - left. reflexivity.
  - unfold minInt, maxInt. lia.
Defined.

(** X2. Whatever the path parser accepts is a hardware address of 6, 8
    or 20 bytes and a code within the range of [int], and the accepted
    pair parses again from its canonical path: the lower-case colon
    form of the address and the decimal form of the code. *)
Theorem extractInfo_accepts_bounded (path : string) (mac : HardwareAddr) (i : Z) :
  extractInfo path = inr (mac, i) ->
  macLength mac
  /\ minInt <= i <= maxInt
  /\ extractInfo (HardwareAddr_String mac +:+ "/" +:+ fmt_d i) = inr (mac, i).
Proof.
  intros (a & b & _ & Hm%ParseMAC_length & Hi%Atoi_range)%extractInfo_ok.
  split; [done|]. split; [done|].
  apply extractInfo_ok. exists (HardwareAddr_String mac), (fmt_d i).
  split; [|split; [by apply ParseMAC_printed|by apply atoi_fmt_d]].
  apply split_two. split; [done|].
  split; [apply noSlash_HardwareAddr_String|apply noSlash_fmt_d].
Qed.

Lemma extractInfo_accepts_bounded_witness :
  macLength Sample.mac1
  /\ extractInfo "aa:bb:cc:dd:ee:ff/11" = inr (Sample.mac1, 11).
Proof.
  destruct (extractInfo_accepts_bounded "AA-BB-CC-DD-EE-FF/+011" Sample.mac1 11)
    as (Hm & _ & Hc).
  - vm_compute. reflexivity.
  - split; [exact Hm|exact Hc].
Defined.

(** ** From the offer to the file transfer *)

(** The file an offer names for a BIOS-PXE or EFI client. *)
Lemma offerDHCP_tftp_filename `{Packages} (s : Server) (pkt : Packet) (mach : Machine)
    (serverIP : IP) (fwtype : Firmware) (resp : Packet) :
  NoDup firmwareConstants ->
  fwtype ∈ tftpFirmware ->
  offerDHCP s pkt mach serverIP fwtype = inr resp ->
  Packet_BootFilename resp
  = HardwareAddr_String (Machine_MAC mach) +:+ "/" +:+ fmt_d fwtype.
Proof.
  intros Hd Hin. unfold tftpFirmware in Hin. rewrite !elem_of_cons, elem_of_nil in Hin.
  unfold offerDHCP. option_codes.
  destruct (Packet_Options pkt !! 97);
    destruct Hin as [->|[->|[->|[->|[->|[]]]]]]; firmware_case Hd; rewrite ?orb_true_r;
    try (destruct (Options_Marshal pxeBypass) as [err|bs]; [done|]);
    by intros [= <-].
Qed.

(** X3. The DHCP offer and the file-transfer service agree: the file
    named in the offer to a BIOS-PXE or EFI machine parses back to that
    machine's hardware address and firmware type, is answered with the
    image registered for that type (or the error naming it), and its
    completed transfer is recorded as a TFTP event of that machine. *)
Theorem offer_file_is_served `{Packages} (s : Server) (pkt : Packet) (mach : Machine)
    (serverIP : IP) (fwtype : Firmware) (resp : Packet) (clientAddr : UDPAddr) :
  NoDup firmwareConstants ->
  fwtype ∈ tftpFirmware ->
  macLength (Machine_MAC mach) ->
  minInt <= fwtype <= maxInt ->
  offerDHCP s pkt mach serverIP fwtype = inr resp ->
  extractInfo (Packet_BootFilename resp) = inr (Machine_MAC mach, fwtype)
  /\ handleTFTP s (Packet_BootFilename resp) clientAddr =
       match Server_Ipxe s !! fwtype with
       | None => inl (fmt_Errorf "unknown firmware type %d" [AInt fwtype])
       | Some bs => inr (bs, Z.of_nat (length bs))
       end
  /\ MachineEvent (Machine_MAC mach) machineStateTFTP "Sent iPXE to %s"
       [AStr (UDPAddr_String clientAddr)]
     ∈ logTFTPTransfer s clientAddr (Packet_BootFilename resp) None.
Proof.
  intros Hd Hin Hm Hi Ho.
  rewrite (offerDHCP_tftp_filename _ _ _ _ _ _ Hd Hin Ho).
  pose proof (extractInfo_ok (HardwareAddr_String (Machine_MAC mach) +:+ "/" +:+ fmt_d fwtype)
                (Machine_MAC mach) fwtype) as Hok.
  assert (extractInfo (HardwareAddr_String (Machine_MAC mach) +:+ "/" +:+ fmt_d fwtype)
          = inr (Machine_MAC mach, fwtype)) as E.
  { apply Hok. exists (HardwareAddr_String (Machine_MAC mach)), (fmt_d fwtype).
    split; [|split; [by apply ParseMAC_printed|by apply atoi_fmt_d]].
    apply split_two. split; [done|].
    split; [apply noSlash_HardwareAddr_String|apply noSlash_fmt_d]. }
  split; [exact E|]. split.
  - unfold handleTFTP. rewrite E. by destruct (Server_Ipxe s !! fwtype).
  - unfold logTFTPTransfer. rewrite E. apply list_elem_of_further, list_elem_of_here.
Qed.

Lemma offer_file_is_served_witness :
  match offerDHCP Sample.server (Sample.discover Sample.mac2 [(93, [x00; x07])])
          {| Machine_MAC := Sample.mac2; Machine_Arch := 1 |} [x0a; x00; x00; x01] 2 with
  | inl _ => False
  | inr resp =>
      extractInfo (Packet_BootFilename resp) = inr (Sample.mac2, 2)
      /\ handleTFTP Sample.server (Packet_BootFilename resp) Sample.client
         = inl (fmt_Errorf "unknown firmware type %d" [AInt 2])
  end.
Proof.
  destruct (offerDHCP Sample.server (Sample.discover Sample.mac2 [(93, [x00; x07])])
              {| Machine_MAC := Sample.mac2; Machine_Arch := 1 |} [x0a; x00; x00; x01] 2)
    as [err|resp] eqn:Ho; [vm_compute in Ho; discriminate|].
  destruct (offer_file_is_served Sample.server
              (Sample.discover Sample.mac2 [(93, [x00; x07])])
              {| Machine_MAC := Sample.mac2; Machine_Arch := 1 |} [x0a; x00; x00; x01] 2
              resp Sample.client sample_firmware_distinct) as (E1 & E2 & _).
  - unfold tftpFirmware. apply list_elem_of_further, list_elem_of_further, list_elem_of_here.
  - left. reflexivity.
  - unfold minInt, maxInt. lia.
  - exact Ho.
  - split; [exact E1|]. rewrite E2. reflexivity.
Defined.

(** X4. A finished transfer is logged with exactly one line, and it is
    recorded as a machine event exactly when its path parses and the
    transfer succeeded; the event then is a TFTP event of the hardware
    address in the path.  A path that [handleTFTP] served is never
    logged as unparsable. *)
Theorem logTFTPTransfer_event `{Packages} (s : Server) (clientAddr : UDPAddr)
    (path : string) (err : option error) :
  let out := logTFTPTransfer s clientAddr path err in
  (exists subsystem format args rest,
     out = Log subsystem format args :: rest
     /\ forall entry, entry ∈ rest -> forall a b c, entry <> Log a b c)
  /\ (forall mac state format args,
        MachineEvent mac state format args ∈ out
        <-> err = None /\ state = machineStateTFTP
            /\ (exists i, extractInfo path = inr (mac, i))
            /\ format = "Sent iPXE to %s" /\ args = [AStr (UDPAddr_String clientAddr)])
  /\ (forall served,
        handleTFTP s path clientAddr = inr served ->
        forall pathErr,
          Log "TFTP" "unable to extract mac from request:%v" [AErr pathErr] ∉ out).
Proof.
  intros out. subst out. unfold logTFTPTransfer, handleTFTP.
  destruct (extractInfo path) as [pathErr|[mac i]] eqn:E; [|destruct err as [err|]].
  - split; [|split].
    + eexists _, _, _, []. split; [done|]. intros entry Hin. by apply elem_of_nil in Hin.
    + intros mac state format args. rewrite list_elem_of_singleton. split; [done|].
      intros (_ & _ & [i Hi] & _). done.
    + done.
  - split; [|split].
    + eexists _, _, _, []. split; [done|]. intros entry Hin. by apply elem_of_nil in Hin.
    + intros mac' state format args. rewrite list_elem_of_singleton. split; [done|].
      intros (? & _). done.
    + intros served _ pathErr. rewrite list_elem_of_singleton. done.
  - split; [|split].
    + eexists _, _, _, [_]. split; [done|]. intros entry ->%list_elem_of_singleton. done.
    + intros mac' state format args. rewrite !elem_of_cons, elem_of_nil. split.
      * intros [?|[[= -> -> -> ->]|[]]]; [done|]. repeat split; try done. by exists i.
      * intros (_ & -> & [i' [= -> _]] & -> & ->). right. by left.
    + intros served _ pathErr. rewrite !elem_of_cons, elem_of_nil. intros [?|[?|[]]]; done.
Qed.

(** ** The vendor prefixes of validateDHCP *)

Lemma byte_of_text b c :
  hexDigit (N.shiftr (Byte.to_N b) 4) = hexDigit (N.shiftr (Byte.to_N c) 4) ->
  hexDigit (N.land (Byte.to_N b) 15) = hexDigit (N.land (Byte.to_N c) 15) ->
  b = c.
Proof.
  intros Hh Hl. pose proof (xtoi2_printed b "" (or_introl eq_refl)) as Hb.
  pose proof (xtoi2_printed c "" (or_introl eq_refl)) as Hc.
  rewrite Hh, Hl in Hb. congruence.
Qed.

Ltac expose_append H :=
  repeat (change (String ?c ?p +:+ ?r) with (String c (p +:+ r)) in H);
  change ("" +:+ ?r) with r in H.

(** X5. The vendor check of [validateDHCP] looks at the text of the
    hardware address, and it fires exactly for the addresses of at
    least four bytes that start with one of the five three-byte vendor
    prefixes; a shorter address never matches, because each prefix
    ends with the separator that follows the third byte. *)
Theorem hasAnyPrefix_vendor_bytes (hw : HardwareAddr) :
  hasAnyPrefix (HardwareAddr_String hw) rpiPrefixes = true
  <-> exists o1 o2 o3 b rest,
        (o1, o2, o3) ∈ vendorOUIs /\ hw = o1 :: o2 :: o3 :: b :: rest.
Proof.
  rewrite hasAnyPrefix_spec. split.
  - intros (p & r & Hin & E).
    destruct hw as [|b1 [|b2 [|b3 [|b4 rest]]]].
    + unfold rpiPrefixes in Hin. rewrite !elem_of_cons, elem_of_nil in Hin.
      destruct Hin as [->|[->|[->|[->|[->|[]]]]]]; expose_append E; discriminate.
    + rewrite HardwareAddr_String_one in E.
      unfold rpiPrefixes in Hin. rewrite !elem_of_cons, elem_of_nil in Hin.
      destruct Hin as [->|[->|[->|[->|[->|[]]]]]]; expose_append E; discriminate.
    + rewrite HardwareAddr_String_cons, HardwareAddr_String_one in E.
      unfold rpiPrefixes in Hin. rewrite !elem_of_cons, elem_of_nil in Hin.
      destruct Hin as [->|[->|[->|[->|[->|[]]]]]]; expose_append E; discriminate.
    + rewrite !HardwareAddr_String_cons, HardwareAddr_String_one in E.
      unfold rpiPrefixes in Hin. rewrite !elem_of_cons, elem_of_nil in Hin.
      destruct Hin as [->|[->|[->|[->|[->|[]]]]]]; expose_append E; discriminate.
    + rewrite !HardwareAddr_String_cons in E.
      unfold rpiPrefixes in Hin. rewrite !elem_of_cons, elem_of_nil in Hin.
      unfold vendorOUIs.
      destruct Hin as [->|[->|[->|[->|[->|[]]]]]]; expose_append E;
        injection E as H1 H1' H2 H2' H3 H3' _.
      1: exists x28, xcd, xc1, b4, rest.
      2: exists xb8, x27, xeb, b4, rest.
      3: exists xd8, x3a, xdd, b4, rest.
      4: exists xdc, xa6, x32, b4, rest.
      5: exists xe4, x5f, x01, b4, rest.
      all: split; [rewrite !elem_of_cons; tauto|].
      all: f_equal; [apply byte_of_text; [exact H1|exact H1']|].
      all: f_equal; [apply byte_of_text; [exact H2|exact H2']|].
      all: f_equal; apply byte_of_text; [exact H3|exact H3'].
  - intros (o1 & o2 & o3 & b & rest & Hin & ->).
    unfold vendorOUIs in Hin. rewrite !elem_of_cons, elem_of_nil in Hin.
    rewrite !HardwareAddr_String_cons. unfold rpiPrefixes.
    destruct Hin as [[= -> -> ->]|[[= -> -> ->]|[[= -> -> ->]|[[= -> -> ->]|[[= -> -> ->]|[]]]]]].
    1: exists "28:cd:c1:", (HardwareAddr_String (b :: rest)).
    2: exists "b8:27:eb:", (HardwareAddr_String (b :: rest)).
    3: exists "d8:3a:dd:", (HardwareAddr_String (b :: rest)).
    4: exists "dc:a6:32:", (HardwareAddr_String (b :: rest)).
    5: exists "e4:5f:01:", (HardwareAddr_String (b :: rest)).
    all: split; [rewrite !elem_of_cons; tauto|reflexivity].
Qed.

Lemma hasAnyPrefix_vendor_bytes_witness :
  hasAnyPrefix (HardwareAddr_String Sample.rpi) rpiPrefixes = true
  /\ hasAnyPrefix (HardwareAddr_String [xb8; x27; xeb]) rpiPrefixes = false.
Proof.
  split.
  - apply hasAnyPrefix_vendor_bytes. exists xb8, x27, xeb, x01, [x02; x03].
    split; [|reflexivity]. unfold vendorOUIs. apply list_elem_of_further, list_elem_of_here.
  - destruct (hasAnyPrefix (HardwareAddr_String [xb8; x27; xeb]) rpiPrefixes) eqn:E; [|done].
    apply hasAnyPrefix_vendor_bytes in E as (? & ? & ? & ? & ? & _ & [=]).
Defined.

(** ** Classification and the offer built from it *)

Lemma archTable_codes `{Packages} fwt arch fw :
  (fwt, (arch, fw)) ∈ archTable -> fwt ∈ [0; 6; 7; 9; 11] /\ fw ∈ tftpFirmware.
Proof.
  unfold archTable, tftpFirmware. rewrite !elem_of_cons, !elem_of_nil.
  intros [E|[E|[E|[E|[E|[]]]]]]; simplify_eq; tauto.
Qed.

Lemma archTable_row `{Packages} fwt :
  fwt ∈ [0; 6; 7; 9; 11] -> exists arch fw, (fwt, (arch, fw)) ∈ archTable.
Proof.
  unfold archTable. rewrite !elem_of_cons, !elem_of_nil.
  intros [->|[->|[->|[->|[->|[]]]]]]; eexists _, _; rewrite !elem_of_cons; tauto.
Qed.

(** X6. [validateDHCP] classifies a packet exactly when its option 93
    reads as one of the codes 0, 6, 7, 9, 11, the vendor check does
    not fire on a code 0, and the GUID option is absent, empty, or 17
    bytes long with a zero first byte; the machine it returns then
    carries the hardware address of the packet. *)
Theorem validateDHCP_accepts `{Packages} (s : Server) (pkt : Packet) :
  let guid := default [] (Packet_Options pkt !! OptUidGuidClientIdentifier) in
  ((exists mach fwtype, (validateDHCP s pkt).2 = inr (mach, fwtype))
   <-> exists fwt,
         Options_Uint16 (Packet_Options pkt) OptClientSystem = inr fwt
         /\ fwt ∈ [0; 6; 7; 9; 11]
         /\ (fwt = 0 ->
             hasAnyPrefix (HardwareAddr_String (Packet_HardwareAddr pkt)) rpiPrefixes = false)
         /\ (length guid = 0%nat \/ (length guid = 17%nat /\ guid !! 0%nat = Some x00)))
  /\ (forall mach fwtype,
        (validateDHCP s pkt).2 = inr (mach, fwtype) ->
        Machine_MAC mach = Packet_HardwareAddr pkt).
Proof.
  intros guid.
  assert (guidAccepted pkt
          <-> length guid = 0%nat \/ (length guid = 17%nat /\ guid !! 0%nat = Some x00)) as Hguid.
  { unfold guidAccepted. subst guid.
    destruct (Packet_Options pkt !! OptUidGuidClientIdentifier) as [g|]; simpl.
    - split; (intros [Hg|Hg]; [left|by right]).
      + by subst g.
      + by destruct g.
    - split; [by left|done]. }
  split; [split|].
  - intros (mach & fwtype & E).
    destruct (validateDHCP_inv _ _ _ _ E) as (fwt & fw & Hu & Ht & Hg & Hok & _).
    exists fwt. split; [done|]. split; [by apply archTable_codes in Ht as [? _]|].
    split; [|by apply Hguid].
    intros Hz. specialize (Hg Hz). rewrite <- vendorPrefixed_spec in Hg.
    by destruct (hasAnyPrefix _ _).
  - intros (fwt & Hu & Hc & Hg & Hok%Hguid%guidCheck_spec).
    destruct (archTable_row _ Hc) as (arch & fw & Ht).
    eexists _, _. rewrite (validateDHCP_classified s pkt fwt arch fw Hu); [|..|done].
    + by rewrite Hok.
    + intros Hz Hp%vendorPrefixed_spec. rewrite (Hg Hz) in Hp. done.
  - intros mach fwtype E.
    by destruct (validateDHCP_inv _ _ _ _ E) as (_ & _ & _ & _ & _ & _ & ? & _).
Qed.

Lemma userClassRefine_domain `{Packages} pkt fw :
  userClassRefine pkt fw = fw
  \/ userClassRefine pkt fw = FirmwareX86Ipxe
  \/ userClassRefine pkt fw = FirmwarePixiecoreIpxe.
Proof.
  unfold userClassRefine. destruct (Options_String _ _) as [|uc]; [by left|].
  destruct (String.eqb uc "pixiecore"); [by right; right|].
  destruct (_ && _); [by right; left|by left].
Qed.

(** X7. Classification and offer construction fit together: the
    firmware type that [validateDHCP] returns is one of the seven types
    [offerDHCP] knows, so the offer for a classified machine never
    fails with "unknown firmware type"; it fails only when the vendor
    options of the two x86 types do not serialize, and is constructed
    otherwise. *)
Theorem validateDHCP_offerDHCP `{Packages} (s : Server) (pkt : Packet) (mach : Machine)
    (fwtype : Firmware) (serverIP : IP) :
  (validateDHCP s pkt).2 = inr (mach, fwtype) ->
  fwtype ∈ firmwareConstants
  /\ match offerDHCP s pkt mach serverIP fwtype with
     | inr resp => True
     | inl err =>
         exists err', Options_Marshal pxeBypass = inl err'
           /\ err = fmt_Errorf "failed to serialize PXE vendor options: %s" [AErr err']
           /\ (fwtype = FirmwareX86PC \/ fwtype = FirmwareX86Ipxe)
     end.
Proof.
  intros E. destruct (validateDHCP_inv _ _ _ _ E) as (fwt & fw & _ & Ht & _ & _ & _ & Hf).
  apply archTable_codes in Ht as [_ Hfw].
  assert (fwtype ∈ firmwareConstants) as Hin.
  { unfold firmwareConstants, tftpFirmware in *.
    rewrite !elem_of_cons, !elem_of_nil in *.
    destruct (userClassRefine_domain pkt fw) as [Hr|[Hr|Hr]]; rewrite Hf, Hr; tauto. }
  split; [exact Hin|]. clear -Hin. unfold offerDHCP.
  destruct (Z.eqb_spec fwtype FirmwareX86PC) as [Ha|Ha].
  { destruct (Options_Marshal pxeBypass) as [err'|bs]; [|done]. exists err'. tauto. }
  destruct (Z.eqb_spec fwtype FirmwareX86Ipxe) as [Hb|Hb].
  { destruct (Options_Marshal pxeBypass) as [err'|bs]; [|done]. exists err'. tauto. }
  destruct (_ || _) eqn:Hefi; [done|].
  destruct (Z.eqb_spec fwtype FirmwarePixiecoreIpxe) as [Hc|Hc]; [done|].
  exfalso. rewrite !orb_false_iff, !Z.eqb_neq in Hefi.
  unfold firmwareConstants in Hin. rewrite !elem_of_cons, !elem_of_nil in Hin. tauto.
Qed.

Lemma validateDHCP_offerDHCP_witness :
  let pkt := Sample.discover Sample.mac2 [(93, [x00; x07])] in
  let mach := {| Machine_MAC := Sample.mac2; Machine_Arch := 1 |} in
  2 ∈ @firmwareConstants Sample.packages
  /\ exists resp, offerDHCP Sample.server pkt mach [x0a; x00; x00; x01] 2 = inr resp.
Proof.
  intros pkt mach.
  destruct (validateDHCP_offerDHCP Sample.server pkt mach 2 [x0a; x00; x00; x01] eq_refl)
    as [Hin Ho].
  split; [exact Hin|].
  destruct (offerDHCP Sample.server pkt mach [x0a; x00; x00; x01] 2) as [err|resp] eqn:E.
  - destruct Ho as (err' & Hm & _). vm_compute in Hm. discriminate.
  - by exists resp.
Defined.

(** X8. A client that identifies as "pixiecore" has been chainloaded
    already and is never pointed at a file-transfer path again:
    whenever it is classified, its offer is constructed, has no boot
    server name and no vendor-specific option, and its boot filename is
    the HTTP URL carrying the architecture of its code and its hardware
    address. *)
Theorem pixiecore_gets_http `{Packages} (s : Server) (pkt : Packet) (mach : Machine)
    (fwtype : Firmware) (serverIP : IP) :
  NoDup firmwareConstants ->
  Options_String (Packet_Options pkt) 77 = inr "pixiecore" ->
  (validateDHCP s pkt).2 = inr (mach, fwtype) ->
  exists resp,
    offerDHCP s pkt mach serverIP fwtype = inr resp
    /\ Packet_BootServerName resp = ""
    /\ Packet_Options resp !! OptVendorSpecific = None
    /\ Packet_BootFilename resp
       = "http://" +:+ IP_String serverIP +:+ ":" +:+ fmt_d (Server_HTTPPort s)
         +:+ "/_/ipxe?arch=" +:+ fmt_d (Machine_Arch mach)
         +:+ "&mac=" +:+ HardwareAddr_String (Packet_HardwareAddr pkt).
Proof.
  intros Hd Hs E.
  destruct (validateDHCP_inv _ _ _ _ E) as (fwt & fw & _ & _ & _ & _ & Hmac & Hf).
  unfold userClassRefine in Hf. rewrite Hs in Hf. simpl in Hf. subst fwtype.
  rewrite <- Hmac. unfold offerDHCP. option_codes.
  destruct (Packet_Options pkt !! 97); firmware_case Hd;
    (eexists; split; [done|]); simpl; repeat split; by simplify_map_eq.
Qed.

Lemma pixiecore_gets_http_witness :
  exists resp,
    offerDHCP Sample.server
      (Sample.discover Sample.mac2 [(93, [x00; x00]); (77, list_byte_of_string "pixiecore")])
      {| Machine_MAC := Sample.mac2; Machine_Arch := 0 |} [x0a; x00; x00; x01] 5 = inr resp
    /\ Packet_BootFilename resp = "http://10.0.0.1:80/_/ipxe?arch=0&mac=de:ad:be:ef:00:01".
Proof.
  destruct (pixiecore_gets_http Sample.server
              (Sample.discover Sample.mac2
                 [(93, [x00; x00]); (77, list_byte_of_string "pixiecore")])
              {| Machine_MAC := Sample.mac2; Machine_Arch := 0 |} 5 [x0a; x00; x00; x01]
              sample_firmware_distinct eq_refl eq_refl) as (resp & E & _ & _ & Hf).
  exists resp. split; [exact E|]. rewrite Hf. vm_compute. reflexivity.
Defined.

(** ** The address chosen for an interface *)

Lemma interfaceIP_tier intf ip :
  interfaceIP intf = inr ip ->
  exists addrs f,
    Interface_Addrs intf = inr addrs
    /\ f ∈ [IP_IsGlobalUnicast; IP_IsLinkLocalUnicast; IP_IsLoopback]
    /\ ip ∈ tier f addrs.
Proof.
  unfold interfaceIP. destruct (Interface_Addrs intf) as [err|addrs]; [done|].
  simpl. rewrite !scanAddrs_tier. intros E. exists addrs.
  destruct (tier IP_IsGlobalUnicast addrs) as [|g ?] eqn:Eg; simpl in E.
  - destruct (tier IP_IsLinkLocalUnicast addrs) as [|l ?] eqn:El; simpl in E.
    + destruct (tier IP_IsLoopback addrs) as [|o ?] eqn:Eo; simpl in E; [done|].
      simplify_eq. exists IP_IsLoopback. rewrite Eo, !elem_of_cons. tauto.
    + simplify_eq. exists IP_IsLinkLocalUnicast. rewrite El, !elem_of_cons. tauto.
  - simplify_eq. exists IP_IsGlobalUnicast. rewrite Eg, !elem_of_cons. tauto.
Qed.

Lemma ipv4Of_length a ip : ipv4Of a = Some ip -> length ip = 4%nat.
Proof.
  destruct a as [ip0 mask|]; simpl; [|done]. unfold IP_To4.
  destruct (Nat.eqb_spec (length ip0) 4); [by intros [= <-]|].
  destruct (_ && _) eqn:Hc; [|done]. intros [= <-].
  apply andb_prop in Hc as [Hl%Nat.eqb_eq _]. rewrite length_drop. lia.
Qed.

Lemma byte_of_N b n c : Byte.to_N b = n -> Byte.of_N n = Some c -> b = c.
Proof. intros <-. rewrite Byte.of_to_N. congruence. Qed.

(** X9. The address [interfaceIP] returns can be advertised: it has
    four bytes, lies in exactly one of the three tiers, is neither the
    unspecified address nor the broadcast address nor a multicast
    address, and prints in dotted-decimal form. *)
Theorem interfaceIP_usable (intf : Interface) (ip : IP) :
  interfaceIP intf = inr ip ->
  length ip = 4%nat
  /\ (IP_IsGlobalUnicast ip = true /\ IP_IsLinkLocalUnicast ip = false
        /\ IP_IsLoopback ip = false
      \/ IP_IsGlobalUnicast ip = false /\ IP_IsLinkLocalUnicast ip = true
        /\ IP_IsLoopback ip = false
      \/ IP_IsGlobalUnicast ip = false /\ IP_IsLinkLocalUnicast ip = false
        /\ IP_IsLoopback ip = true)
  /\ IP_IsUnspecified ip = false
  /\ IP_Equal ip IPv4bcast = false
  /\ IP_IsMulticast ip = false
  /\ IP_String ip = dotted ip.
Proof.
  intros (addrs & f & _ & Hf & Hin)%interfaceIP_tier.
  apply tier_ipv4 in Hin as (Hp & a & _ & Hl%ipv4Of_length).
  split; [done|].
  destruct ip as [|a1 [|a2 [|a3 [|a4 [|? ?]]]]]; try done. clear Hl.
  assert (IP_String [a1; a2; a3; a4] = dotted [a1; a2; a3; a4]) as Hs by reflexivity.
  rewrite !elem_of_cons, elem_of_nil in Hf. destruct Hf as [->|[->|[->|[]]]].
  - unfold IP_IsGlobalUnicast in Hp. rewrite !andb_true_iff, !negb_true_iff in Hp.
    destruct Hp as (((((_ & Hb) & Hu) & Hlo) & Hm) & Hll).
    split; [left; unfold IP_IsGlobalUnicast; by rewrite Hb, Hu, Hlo, Hm, Hll|]. done.
  - assert (a1 = xa9 /\ a2 = xfe) as [-> ->].
    { unfold IP_IsLinkLocalUnicast in Hp. simpl in Hp.
      apply andb_prop in Hp as [H1%N.eqb_eq H2%N.eqb_eq].
      split; eapply byte_of_N; done. }
    split; [right; left|]; repeat split; reflexivity.
  - assert (a1 = x7f) as ->.
    { unfold IP_IsLoopback in Hp. simpl in Hp. apply N.eqb_eq in Hp.
      eapply byte_of_N; done. }
    split; [right; right|]; repeat split; reflexivity.
Qed.

Lemma interfaceIP_usable_witness :
  IP_IsGlobalUnicast [x0a; x00; x00; x01] = true
  /\ IP_String [x0a; x00; x00; x01] = "10.0.0.1".
Proof.
  destruct (interfaceIP_usable Sample.eth0 [x0a; x00; x00; x01]) as (_ & Ht & _ & _ & _ & Hs).
  - vm_compute. reflexivity.
  - split; [|rewrite Hs; reflexivity].
    destruct Ht as [(? & _)|[(? & Hl & _)|(? & Hl & _)]]; [done|vm_compute in Hl; discriminate..].
Defined.

(** ** The portable transport *)

Section Portable.
Context `{Packages}.

Lemma recvLoop_skip byIndex deadline bad reads :
  Forall undecodable bad ->
  recvLoop byIndex deadline (bad ++ reads) = recvLoop byIndex deadline reads.
Proof.
  induction 1 as [|r bad (buf & cm & err & -> & Hu) _ IH]; [done|].
  simpl. by rewrite Hu.
Qed.

Lemma recvLoop_suffix byIndex deadline reads :
  exists used, reads = used ++ (recvLoop byIndex deadline reads).1
    /\ (fatal (recvLoop byIndex deadline reads).2 = None -> used <> []).
Proof.
  induction reads as [|[err|[buf cm]] reads IH]; simpl.
  - by exists [].
  - by exists [inl err].
  - destruct (Unmarshal (take 1500 buf)).
    + destruct IH as (used & Hu & Hne). exists (inr (buf, cm) :: used).
      split; [simpl; by f_equal|done].
    + exists [inr (buf, cm)]. by destruct (byIndex _).
Qed.

Lemma RecvDHCP_frame c :
  sameSocket c (portableConn_RecvDHCP c).1
  /\ PacketConn_writes (portableConn_RecvDHCP c).1 = PacketConn_writes c.
Proof. unfold portableConn_RecvDHCP, sameSocket. by destruct (recvLoop _ _ _). Qed.

Lemma RecvDHCP_reads c :
  PacketConn_reads (portableConn_RecvDHCP c).1
  = (recvLoop (PacketConn_InterfaceByIndex c) (PacketConn_deadline c) (PacketConn_reads c)).1
  /\ (portableConn_RecvDHCP c).2
     = (recvLoop (PacketConn_InterfaceByIndex c) (PacketConn_deadline c) (PacketConn_reads c)).2.
Proof. unfold portableConn_RecvDHCP. by destruct (recvLoop _ _ _). Qed.

(** X10. [RecvDHCP] of the portable transport skips the datagrams that
    do not decode, without reporting them: what it returns is decided
    by the first read that is an error or a datagram that decodes.  An
    error is returned as it is; a datagram that decodes is returned
    with the interface of its control message, and when that interface
    cannot be looked up the error of the lookup is returned and the
    datagram is lost; when nothing but undecodable datagrams arrive,
    the read ends with the error of the socket.  The reads up to that
    point are consumed, the writes are not touched. *)
Theorem RecvDHCP_skips_undecodable (c : PacketConn)
    (bad rest : list (error + (list byte * ControlMessage))) :
  Forall undecodable bad ->
  (PacketConn_reads c = bad ->
     (portableConn_RecvDHCP c).2 = inl (PacketConn_deadline c)
     /\ PacketConn_reads (portableConn_RecvDHCP c).1 = [])
  /\ (forall err,
        PacketConn_reads c = bad ++ inl err :: rest ->
        (portableConn_RecvDHCP c).2 = inl err
        /\ PacketConn_reads (portableConn_RecvDHCP c).1 = rest)
  /\ (forall buf cm pkt,
        PacketConn_reads c = bad ++ inr (buf, cm) :: rest ->
        Unmarshal (take 1500 buf) = inr pkt ->
        (portableConn_RecvDHCP c).2
        = match PacketConn_InterfaceByIndex c (ControlMessage_IfIndex cm) with
          | inl err => inl err
          | inr intf => inr (pkt, Some intf)
          end
        /\ PacketConn_reads (portableConn_RecvDHCP c).1 = rest)
  /\ PacketConn_writes (portableConn_RecvDHCP c).1 = PacketConn_writes c.
Proof.
  intros Hbad. destruct (RecvDHCP_reads c) as [Hr Hv]. rewrite Hr, Hv.
  split; [|split; [|split]].
  - intros ->. rewrite <- (app_nil_r bad), recvLoop_skip by done. done.
  - intros err ->. rewrite recvLoop_skip by done. done.
  - intros buf cm pkt -> Hu. rewrite recvLoop_skip by done. simpl. rewrite Hu.
    by destruct (PacketConn_InterfaceByIndex c _).
  - apply RecvDHCP_frame.
Qed.

Lemma WriteTo_frame c b cm dst :
  sameSocket c (WriteTo c b cm dst).1
  /\ PacketConn_reads (WriteTo c b cm dst).1 = PacketConn_reads c.
Proof. done. Qed.

(** What [SendDHCP] leaves behind: the same socket with at most one
    more write, which carries the encoding of the packet. *)
Lemma SendDHCP_frame c pkt intf :
  sameSocket c (portableConn_SendDHCP c pkt intf).1
  /\ PacketConn_reads (portableConn_SendDHCP c pkt intf).1 = PacketConn_reads c
  /\ (PacketConn_writes (portableConn_SendDHCP c pkt intf).1 = PacketConn_writes c
      \/ exists d,
           PacketConn_writes (portableConn_SendDHCP c pkt intf).1
           = PacketConn_writes c ++ [(d, PacketConn_writeResult c d)]
           /\ Packet_Marshal pkt = inr (Datagram_bytes d)
           /\ (forall m, Datagram_cm d = Some m ->
                 ControlMessage_IfIndex m = Interface_Index intf)).
Proof.
  unfold portableConn_SendDHCP.
  destruct (Packet_Marshal pkt) as [err|b]; [by split; [|split; [|left]]|].
  repeat case_match; simpl; (split; [done|]); (split; [done|]);
    first [by left | right; eexists; split; [done|]; split; [done|]; by intros ? [= <-] | idtac].
  all: right; eexists; split; [done|]; split; [done|]; done.
Qed.

End Portable.

Lemma RecvDHCP_skips_undecodable_witness :
  (@portableConn_RecvDHCP Sample.packages Sample2.busy).2 = inl (errors_New "i/o timeout")
  /\ PacketConn_reads (@portableConn_RecvDHCP Sample.packages Sample2.busy).1 = [].
Proof.
  destruct (@RecvDHCP_skips_undecodable Sample.packages Sample2.busy
              (PacketConn_reads Sample2.busy) []) as [Hall _].
  - repeat constructor; eexists _, _, _; split; reflexivity.
  - apply Hall. reflexivity.
Defined.

(** X11. [SendDHCP] of the portable transport returns no error exactly
    when the packet encodes, its transmission strategy is one of the
    four, and the socket accepts the write.  It calls [WriteTo] once
    when the packet encodes and the strategy is known, whether or not
    the write succeeds, and not at all otherwise; the pending reads are
    never touched. *)
Theorem SendDHCP_result `{Packages} (c : PacketConn) (pkt : Packet) (intf : Interface) :
  let t := Packet_txType pkt in
  let c' := (portableConn_SendDHCP c pkt intf).1 in
  ((portableConn_SendDHCP c pkt intf).2 = None
   <-> exists d,
         Packet_Marshal pkt = inr (Datagram_bytes d)
         /\ t ∈ [txBroadcast; txRelayAddr; txClientAddr; txHardwareAddr]
         /\ PacketConn_writeResult c d = None
         /\ PacketConn_writes c' = PacketConn_writes c ++ [(d, None)])
  /\ match Packet_Marshal pkt with
     | inl _ => PacketConn_writes c' = PacketConn_writes c
     | inr b =>
         if bool_decide (t ∈ [txBroadcast; txRelayAddr; txClientAddr; txHardwareAddr])
         then exists d,
                Datagram_bytes d = b
                /\ PacketConn_writes c'
                   = PacketConn_writes c ++ [(d, PacketConn_writeResult c d)]
         else PacketConn_writes c' = PacketConn_writes c
     end
  /\ PacketConn_reads c' = PacketConn_reads c.
Proof.
  intros t c'. subst c'. unfold portableConn_SendDHCP. fold t.
  destruct (Packet_Marshal pkt) as [err|b] eqn:Em.
  { split; [|done]. split; [done|]. intros (d & [=] & _). }
  destruct (decide (t ∈ [txBroadcast; txRelayAddr; txClientAddr; txHardwareAddr]))
    as [Hk|Hk].
  - rewrite bool_decide_eq_true_2 by done.
    rewrite !elem_of_cons, elem_of_nil in Hk.
    destruct Hk as [->|[->|[->|[->|[]]]]]; simpl;
      match goal with
      | |- (PacketConn_writeResult c ?d = None <-> _) /\ _ => set (dg := d)
      end;
      (split; [|split; [by exists dg|done]]);
      (split;
       [intros Hw; exists dg; split; [done|];
        split; [rewrite !elem_of_cons; tauto|]; split; [exact Hw|by rewrite Hw]
       |intros (d & _ & _ & _ & Hws);
        apply app_inv_head in Hws; by injection Hws as _ Hw]).
  - rewrite bool_decide_eq_false_2 by done.
    rewrite !not_elem_of_cons in Hk. destruct Hk as (?&?&?&?&_).
    repeat match goal with
           | |- context [t =? ?b] =>
               replace (t =? b) with false by (symmetry; apply Z.eqb_neq; congruence)
           end.
    simpl. split; [|done]. split; [done|].
    intros (d & _ & Hk & _). rewrite !elem_of_cons, elem_of_nil in Hk. tauto.
Qed.

(** ** What the loop sends *)

Lemma offerDHCP_header `{Packages} (s : Server) (pkt : Packet) (mach : Machine)
    (serverIP : IP) (fwtype : Firmware) (resp : Packet) :
  offerDHCP s pkt mach serverIP fwtype = inr resp ->
  Packet_Type resp = MsgOffer
  /\ Packet_TransactionID resp = Packet_TransactionID pkt
  /\ Packet_HardwareAddr resp = Machine_MAC mach
  /\ Packet_RelayAddr resp = Packet_RelayAddr pkt
  /\ Packet_ServerAddr resp = serverIP
  /\ Packet_Options resp !! OptServerIdentifier = Some serverIP.
Proof.
  intros E. unfold offerDHCP in E. option_codes.
  destruct (Packet_Options pkt !! 97) as [guid|] eqn:Eg;
    repeat (case_match; simplify_eq); simpl; repeat split; by simplify_map_eq.
Qed.

Lemma offered_answers `{Packages} (s : Server) (pkt : Packet) (intf : Interface)
    (resp : Packet) :
  offered s pkt intf resp -> answers pkt intf resp.
Proof.
  intros (mach & fwtype & spec & serverIP & Hb & Hv & _ & Hi & Ho).
  apply offerDHCP_header in Ho as (Ht & Hx & Hh & Hr & Hs & Hid).
  destruct (validateDHCP_inv _ _ _ _ Hv) as (_ & _ & _ & _ & _ & _ & Hmac & _).
  apply interfaceIP_tier in Hi as (addrs & f & Ha & _ & Hin).
  apply tier_ipv4 in Hin as (_ & a & Hina & Hv4).
  unfold isBootDHCP in Hb.
  destruct (Packet_Type pkt) eqn:Etype; try done.
  destruct (Packet_Options pkt !! OptClientSystem) eqn:Eopt; [|done].
  unfold answers. rewrite Eopt, Hs.
  repeat split; try done; [congruence|by exists addrs, a].
Qed.

(** X12. Whatever a pass of the loop hands to [SendDHCP] answers the
    request it has just received: after a receive that delivered [pkt]
    on [intf], either nothing is sent and the connection is as the
    receive left it, or [SendDHCP] is called once, on [intf], with an
    Offer to [pkt] (a Discover carrying option 93) that has the
    request's transaction id and hardware address and, as server
    address and server identifier, an IPv4 address of [intf]. *)
Theorem serveDHCP_body_answers `{Packages} {C : Type} `{Conn C}
    (s : Server) (conn conn1 : C) (pkt : Packet) (intf : Interface) :
  RecvDHCP conn = (conn1, inr (pkt, Some intf)) ->
  (exists l, serveDHCP_body s conn = (conn1, l, Continue))
  \/ (exists resp l,
        answers pkt intf resp
        /\ serveDHCP_body s conn = ((SendDHCP conn1 resp intf).1, l, Continue)).
Proof.
  intros Hr. destruct (fault_or_offer s pkt intf) as [[entry Hf]|[resp Ho]].
  - left. destruct (body_fault s conn conn1 pkt intf entry Hr Hf) as [l Hl]. by eexists.
  - right. destruct (body_send s conn conn1 pkt intf resp Hr Ho) as [l Hl].
    exists resp. destruct (SendDHCP conn1 resp intf) as [conn2 [err|]];
      eexists; (split; [by eapply offered_answers|]); exact Hl.
Qed.

Lemma serveDHCP_body_answers_witness :
  exists resp l,
    answers (Sample.discover Sample.mac2 [(93, [x00; x07])]) Sample.eth0 resp
    /\ serveDHCP_body Sample.server (afterPasses 2 Sample.server Sample.script)
       = ((SendDHCP (RecvDHCP (afterPasses 2 Sample.server Sample.script)).1 resp
             Sample.eth0).1, l, Continue).
Proof.
  destruct (serveDHCP_body_answers Sample.server
              (afterPasses 2 Sample.server Sample.script)
              (RecvDHCP (afterPasses 2 Sample.server Sample.script)).1
              (Sample.discover Sample.mac2 [(93, [x00; x07])]) Sample.eth0)
    as [[l Hl]|(resp & l & Ha & Hl)].
  - vm_compute. reflexivity.
  - vm_compute in Hl. discriminate.
  - by exists resp, l.
Defined.

(** ** The loop over the portable transport *)

Section PortableLoop.
Context `{Packages}.

Lemma recvLoop_origin byIndex deadline reads pkt o :
  (recvLoop byIndex deadline reads).2 = inr (pkt, o) ->
  exists buf cm intf,
    o = Some intf /\ inr (buf, cm) ∈ reads
    /\ Unmarshal (take 1500 buf) = inr pkt
    /\ byIndex (ControlMessage_IfIndex cm) = inr intf.
Proof.
  induction reads as [|[err|[buf cm]] reads IH]; simpl; [done..|].
  destruct (Unmarshal (take 1500 buf)) as [err|p] eqn:Eu.
  - intros (b & m & i & ? & Hin & ?)%IH. exists b, m, i. split; [done|].
    split; [by right|done].
  - destruct (byIndex (ControlMessage_IfIndex cm)) as [err|intf] eqn:Ei; simpl; [done|].
    intros [= <- <-]. exists buf, cm, intf. split; [done|]. split; [by left|done].
Qed.

(** One pass over the portable transport: the socket stays the same,
    the reads are those the receive left, and at most one write is
    added, the encoding of an answer to a datagram that was read. *)
Lemma body_portable (s : Server) (c : PacketConn) :
  let c' := (serveDHCP_body s c).1.1 in
  sameSocket c c'
  /\ PacketConn_reads c' = PacketConn_reads (portableConn_RecvDHCP c).1
  /\ (PacketConn_writes c' = PacketConn_writes c
      \/ exists d buf cm pkt intf resp,
           PacketConn_writes c' = PacketConn_writes c ++ [(d, PacketConn_writeResult c d)]
           /\ inr (buf, cm) ∈ PacketConn_reads c
           /\ Unmarshal (take 1500 buf) = inr pkt
           /\ PacketConn_InterfaceByIndex c (ControlMessage_IfIndex cm) = inr intf
           /\ answers pkt intf resp
           /\ Packet_Marshal resp = inr (Datagram_bytes d)
           /\ (forall m, Datagram_cm d = Some m ->
                 ControlMessage_IfIndex m = Interface_Index intf)).
Proof.
  intros c'. subst c'.
  destruct (RecvDHCP_frame c) as [Hsame Hw]. destruct (RecvDHCP_reads c) as [_ Hres].
  pose proof (body_outcome s c) as Hout.
  change (RecvDHCP c) with (portableConn_RecvDHCP c) in Hout.
  destruct (portableConn_RecvDHCP c) as [c1 r] eqn:Er. simpl in *.
  destruct (fatal r) as [e|] eqn:Hf.
  { rewrite Hout. simpl. split; [done|]. split; [done|]. by left. }
  destruct r as [err|[pkt [intf|]]]; try done.
  symmetry in Hres. apply recvLoop_origin in Hres
    as (buf & cm & intf' & [= <-] & Hin & Hu & Hi).
  assert ((exists l, serveDHCP_body s c = (c1, l, Continue))
          \/ (exists resp l, answers pkt intf resp
                /\ serveDHCP_body s c = ((SendDHCP c1 resp intf).1, l, Continue)))
    as [[l Hl]|(resp & l & Ha & Hl)].
  { destruct (fault_or_offer s pkt intf) as [[entry Hfa]|[resp Ho]].
    - left. destruct (@body_fault _ _ portableConn s c c1 pkt intf entry Er Hfa) as [l Hl].
      by eexists.
    - right. destruct (@body_send _ _ portableConn s c c1 pkt intf resp Er Ho) as [l Hl].
      exists resp. destruct (SendDHCP c1 resp intf) as [conn2 [err|]];
        eexists; (split; [by eapply offered_answers|]); exact Hl. }
  all: rewrite Hl; simpl.
  - split; [done|]. split; [done|]. by left.
  - change (SendDHCP c1 resp intf) with (portableConn_SendDHCP c1 resp intf).
    destruct (SendDHCP_frame c1 resp intf) as (Hs2 & Hr2 & Hw2).
    destruct Hsame as (Hd & Hwr & Hbi). destruct Hs2 as (Hd2 & Hwr2 & Hbi2).
    split; [unfold sameSocket; by rewrite Hd2, Hwr2, Hbi2|]. split; [done|].
    destruct Hw2 as [Hw2|(d & Hw2 & Hm & Hcm)]; [left; congruence|].
    right. exists d, buf, cm, pkt, intf, resp.
    rewrite Hw2, Hw, Hwr. done.
Qed.

Lemma loop_conn fuel (s : Server) (c : PacketConn) :
  (serveDHCP fuel s c).1.1 = (serveDHCP_loop fuel s c).1.1
  /\ (serveDHCP fuel s c).2 = (serveDHCP_loop fuel s c).2.
Proof. unfold serveDHCP. by destruct (serveDHCP_loop fuel s c) as [[? ?] ?]. Qed.

Lemma loop_unfold fuel (s : Server) (c : PacketConn) :
  (serveDHCP_loop (S fuel) s c).1.1
  = match (serveDHCP_body s c).2 with
    | Return _ => (serveDHCP_body s c).1.1
    | Continue => (serveDHCP_loop fuel s (serveDHCP_body s c).1.1).1.1
    end
  /\ (serveDHCP_loop (S fuel) s c).2
     = match (serveDHCP_body s c).2 with
       | Return e => Some e
       | Continue => (serveDHCP_loop fuel s (serveDHCP_body s c).1.1).2
       end.
Proof.
  rewrite loop_step. destruct (serveDHCP_body s c) as [[c1 l] [|e]]; simpl; [|done].
  by destruct (serveDHCP_loop fuel s c1) as [[? ?] ?].
Qed.

End PortableLoop.



(** X14. Over the portable transport the loop writes nothing but
    answers: every datagram it has written, in any number of passes, is
    the encoding of an Offer that answers a Discover decoded from one
    of the datagrams read, names an address of the interface that
    datagram arrived on, and, when it carries a control message, is
    sent on that interface; and there are no more writes than reads
    consumed. *)
Theorem serveDHCP_portable_writes `{Packages} (s : Server) (c : PacketConn) (fuel : nat) :
  let c' := (serveDHCP fuel s c).1.1 in
  exists new,
    PacketConn_writes c' = PacketConn_writes c ++ new
    /\ (length new + length (PacketConn_reads c') <= length (PacketConn_reads c))%nat
    /\ Forall (fun w =>
         exists buf cm pkt intf resp,
           inr (buf, cm) ∈ PacketConn_reads c
           /\ Unmarshal (take 1500 buf) = inr pkt
           /\ PacketConn_InterfaceByIndex c (ControlMessage_IfIndex cm) = inr intf
           /\ answers pkt intf resp
           /\ Packet_Marshal resp = inr (Datagram_bytes w.1)
           /\ w.2 = PacketConn_writeResult c w.1
           /\ (forall m, Datagram_cm w.1 = Some m ->
                 ControlMessage_IfIndex m = Interface_Index intf)) new.
Proof.
  intros c'. subst c'. destruct (loop_conn fuel s c) as [-> _].
  revert c. induction fuel as [|fuel IH]; intros c.
  { exists []. simpl. rewrite app_nil_r. split; [done|]. split; [lia|constructor]. }
  destruct (loop_unfold fuel s c) as [-> _].
  destruct (body_portable s c) as (Hsame & Hreads & Hw).
  destruct (RecvDHCP_reads c) as [Hr1 _].
  destruct (recvLoop_suffix (PacketConn_InterfaceByIndex c) (PacketConn_deadline c)
              (PacketConn_reads c)) as (used & Hused & Hne).
  rewrite <- Hr1, <- Hreads in Hused.
  pose proof (f_equal length Hused) as Hlen0. rewrite length_app in Hlen0.
  assert (PacketConn_writes (serveDHCP_body s c).1.1 = PacketConn_writes c
          \/ used <> []) as Hcount.
  { destruct Hw as [Hw|(d & buf & cm & pkt & intf & resp & Hw & _)]; [by left|].
    right. apply Hne. pose proof (body_outcome s c) as Hout.
    change (RecvDHCP c) with (portableConn_RecvDHCP c) in Hout.
    destruct (RecvDHCP_reads c) as [_ Hr2]. rewrite <- Hr2.
    destruct (fatal (portableConn_RecvDHCP c).2) eqn:Hf; [|done].
    rewrite Hout in Hw. simpl in Hw. destruct (RecvDHCP_frame c) as [_ Hwf].
    rewrite Hwf in Hw. apply (f_equal length) in Hw. rewrite length_app in Hw.
    simpl in Hw. lia. }
  assert (exists one,
    PacketConn_writes (serveDHCP_body s c).1.1 = PacketConn_writes c ++ one
    /\ (length one + length (PacketConn_reads (serveDHCP_body s c).1.1)
        <= length (PacketConn_reads c))%nat
    /\ Forall (fun w =>
         exists buf cm pkt intf resp,
           inr (buf, cm) ∈ PacketConn_reads c
           /\ Unmarshal (take 1500 buf) = inr pkt
           /\ PacketConn_InterfaceByIndex c (ControlMessage_IfIndex cm) = inr intf
           /\ answers pkt intf resp
           /\ Packet_Marshal resp = inr (Datagram_bytes w.1)
           /\ w.2 = PacketConn_writeResult c w.1
           /\ (forall m, Datagram_cm w.1 = Some m ->
                 ControlMessage_IfIndex m = Interface_Index intf)) one) as (one & Hone & Hlen & Hall).
  { destruct Hw as [Hw|(d & buf & cm & pkt & intf & resp & Hw & Hin & Hu & Hi & Ha & Hm & Hcm)].
    - exists []. rewrite app_nil_r. split; [done|]. split; [|constructor].
      simpl. lia.
    - exists [(d, PacketConn_writeResult c d)]. split; [done|]. split.
      + destruct Hcount as [Hc|Hc].
        * rewrite Hc in Hw. apply (f_equal length) in Hw. rewrite length_app in Hw.
          simpl in Hw. lia.
        * destruct used; [done|]. simpl in *. lia.
      + constructor; [|constructor]. by exists buf, cm, pkt, intf, resp. }
  destruct (serveDHCP_body s c).2 eqn:Hout.
  2: { exists one. done. }
  destruct (IH (serveDHCP_body s c).1.1) as (new & Hnew & Hlen' & Hall').
  destruct Hsame as (_ & Hwr & Hbi).
  exists (one ++ new). rewrite Hnew, Hone, (assoc_L (++)). split; [done|].
  split; [rewrite length_app; lia|].
  apply Forall_app. split; [done|].
  eapply Forall_impl; [exact Hall'|].
  intros w (buf & cm & pkt & intf & resp & Hin & Hu & Hi & Ha & Hm & Hres & Hcm).
  exists buf, cm, pkt, intf, resp. rewrite <- Hwr, <- Hbi.
  split; [|done]. rewrite Hused. apply elem_of_app. by right.
Qed.

(** ** What an offer never contains *)

(** X15. The server is a ProxyDHCP: an offer never assigns an address
    (its client and your addresses are unset), and it carries no option
    besides the server identifier, the vendor class identifier, the
    client GUID, present only if the request had one, and the
    vendor-specific option. *)
Theorem offerDHCP_no_lease `{Packages} (s : Server) (pkt : Packet) (mach : Machine)
    (serverIP : IP) (fwtype : Firmware) (resp : Packet) :
  offerDHCP s pkt mach serverIP fwtype = inr resp ->
  Packet_ClientAddr resp = []
  /\ Packet_YourAddr resp = []
  /\ (forall k,
        is_Some (Packet_Options resp !! k) ->
        k ∈ [OptVendorSpecific; OptServerIdentifier; OptVendorIdentifier;
             OptUidGuidClientIdentifier]
        /\ (k = OptUidGuidClientIdentifier ->
            is_Some (Packet_Options pkt !! OptUidGuidClientIdentifier))).
Proof.
  intros E. unfold offerDHCP in E. option_codes.
  destruct (Packet_Options pkt !! 97) as [guid|] eqn:Eg;
    repeat (case_match; simplify_eq); simpl; (split; [done|]); (split; [done|]);
    intros k [v Hk]; rewrite !elem_of_cons;
    repeat (rewrite lookup_insert in Hk; case_decide; [subst k; split; [tauto|done]|]);
    by rewrite lookup_empty in Hk.
Qed.

Lemma offerDHCP_no_lease_witness :
  match offerDHCP Sample.server (Sample.discover Sample.mac2 [(93, [x00; x07])])
          {| Machine_MAC := Sample.mac2; Machine_Arch := 1 |} [x0a; x00; x00; x01] 2 with
  | inl _ => False
  | inr resp => Packet_YourAddr resp = [] /\ Packet_Options resp !! 97 = None
  end.
Proof.
  destruct (offerDHCP Sample.server (Sample.discover Sample.mac2 [(93, [x00; x07])])
              {| Machine_MAC := Sample.mac2; Machine_Arch := 1 |} [x0a; x00; x00; x01] 2)
    as [err|resp] eqn:Ho; [vm_compute in Ho; discriminate|].
  destruct (offerDHCP_no_lease _ _ _ _ _ _ Ho) as (_ & Hy & Hk).
  split; [exact Hy|].
  destruct (Packet_Options resp !! 97) as [v|] eqn:E; [|reflexivity].
  destruct (Hk 97 (ex_intro _ v E)) as [_ Hg]. destruct (Hg eq_refl) as [g Hg'].
  vm_compute in Hg'. discriminate.
Defined.
